(** * robin_stocks.robinhood.export: CSV export of completed orders

    A shallow embedding of [src/robin_stocks/robinhood/export.py] and the
    properties of its path construction, of its three export procedures and
    of the weighted average computed for option legs.

    Conventions of the embedding.
    - JSON data decoded by the API client is a [value]; a Python [dict] with
      string keys is a [gmap string value].
    - A Python exception is an [exn]; a computation that may raise and that
      performs observable actions (network requests, file operations) is a
      [prog]: the list of actions performed, then the outcome.
    - The answers of the API client are given by an environment, as
      functions of the request.
    - A Python [float] is an IEEE 754 binary64 number, with the operations
      of the Standard Library's [SpecFloat] (round to nearest, ties to
      even; signed zeros, infinities and [NaN]); a Python [int] is a [Z].
    - Paths are POSIX paths on a file system without symbolic links. *)

From Stdlib Require Import ZArith SpecFloat Ascii String.
From stdpp Require Import gmap strings list.

(** ** Values, exceptions, outcomes *)

(** Binary64: 53 bits of precision, exponents below 1024. *)
Definition float : Type := spec_float.

Definition NaN : float := S754_nan.
Definition zero : float := S754_zero false.
Definition neg_zero : float := S754_zero true.

Definition fadd : float → float → float := SFadd 53 1024.
Definition fmul : float → float → float := SFmul 53 1024.
Definition fdiv : float → float → float := SFdiv 53 1024.

(** [x == 0.0]: true of both zeros, false of [NaN]. *)
Definition is_zero (x : float) : bool := SFeqb x zero.

Definition is_nan (x : float) : bool :=
  match x with S754_nan => true | _ => false end.

Definition is_inf (x : float) : bool :=
  match x with S754_infinity _ => true | _ => false end.

(** The binary64 number nearest to an integer; an infinity when the integer
    is 2^1024 - 2^970 or more in absolute value. *)
Definition float_of_Z (z : Z) : float := binary_normalize 53 1024 z 0 false.

#[warnings="-register-all"]
Inductive value : Type :=
  | VNone
  | VBool (b : bool)
  | VStr (s : string)
  | VInt (z : Z)
  | VNum (x : float)
  | VList (l : list value)
  | VDict (d : gmap string value).

Abbreviation dict := (gmap string value).

(** POSIX [pathlib.Path]: whether the path has the root ["/"], and its
    components after the root. *)
Record Path : Type := mkPath { root : bool; parts : list string }.

#[global] Instance Path_eq_dec : EqDecision Path := ltac:(solve_decision).

Inductive exn : Type :=
  | KeyError (key : string)
  | TypeError
  | ValueError
  | ZeroDivisionError
  | OverflowError
  | FileNotFoundError (p : Path)
  | NotADirectoryError (p : Path)
  | IsADirectoryError (p : Path)
  | NotLoggedIn
  | RequestFailed (what : string)
  | OutsideModel.

Inductive result (A : Type) : Type :=
  | Ok (a : A)
  | Raise (e : exn).
Arguments Ok {A} a.
Arguments Raise {A} e.

#[global] Instance result_bind : MBind result := fun A B k r =>
  match r with
  | Ok a => k a
  | Raise e => Raise e
  end.

#[global] Instance result_ret : MRet result := fun A a => Ok a.

(** ** Observable actions and programs *)

Inductive event : Type :=
  | EvRequest (endpoint : string) (args : list value)
  | EvOpen (p : Path)
  | EvWriteRow (row : list value)
  | EvClose.

Definition prog (A : Type) : Type := (list event * result A)%type.

Definition trace {A} (m : prog A) : list event := fst m.
Definition outcome {A} (m : prog A) : result A := snd m.

Definition raise {A} (e : exn) : prog A := ([], Raise e).
Definition emit (ev : event) : prog unit := ([ev], Ok tt).
Definition lift {A} (r : result A) : prog A := ([], r).

#[global] Instance prog_bind : MBind prog := fun A B k m =>
  match m with
  | (t, Ok a) => let '(t', r) := k a in (t ++ t', r)
  | (t, Raise e) => (t, Raise e)
  end.

#[global] Instance prog_ret : MRet prog := fun A a => ([], Ok a).

(** [for x in l: body x] *)
Fixpoint for_each {A} (l : list A) (body : A -> prog unit) : prog unit :=
  match l with
  | [] => mret tt
  | x :: l' => body x;; for_each l' body
  end.

(** The rows handed to [csv_writer.writerow], in the order of the calls. *)
Fixpoint written (t : list event) : list (list value) :=
  match t with
  | [] => []
  | EvWriteRow r :: t' => r :: written t'
  | _ :: t' => written t'
  end.

(** The network requests made, in order. *)
Fixpoint requests (t : list event) : list (string * list value) :=
  match t with
  | [] => []
  | EvRequest e a :: t' => (e, a) :: requests t'
  | _ :: t' => requests t'
  end.

(** ** Python built-ins on values *)

(** [v[key]] for a string key. *)
Definition getitem (v : value) (key : string) : result value :=
  match v with
  | VDict d => match d !! key with
               | Some x => Ok x
               | None => Raise (KeyError key)
               end
  | _ => Raise TypeError
  end.

(** [v == s] for a string literal [s]. *)
Definition eq_str (v : value) (s : string) : bool :=
  match v with
  | VStr s' => String.eqb s' s
  | _ => false
  end.

(** [v is None] *)
Definition is_None (v : value) : bool :=
  match v with VNone => true | _ => false end.

Fixpoint chars (s : string) : list value :=
  match s with
  | EmptyString => []
  | String c s' => VStr (String c EmptyString) :: chars s'
  end.

(** What [for x in v] iterates over; for a dictionary, its keys (in the
    order the map enumerates them). *)
Definition iter (v : value) : result (list value) :=
  match v with
  | VList l => Ok l
  | VStr s => Ok (chars s)
  | VDict d => Ok (map (fun kv => VStr (fst kv)) (map_to_list d))
  | _ => Raise TypeError
  end.

(** [len(v)] *)
Definition len (v : value) : result nat :=
  match v with
  | VList l => Ok (length l)
  | VStr s => Ok (String.length s)
  | VDict d => Ok (size d)
  | _ => Raise TypeError
  end.

(** ** pathlib *)

(** [s.split(sep)] *)
Fixpoint split_on (sep : Ascii.ascii) (s : string) : list string :=
  match s with
  | EmptyString => [EmptyString]
  | String c s' =>
      if Ascii.eqb c sep then EmptyString :: split_on sep s'
      else match split_on sep s' with
           | [] => [String c EmptyString]
           | w :: ws => String c w :: ws
           end
  end.

Definition starts_with_slash (s : string) : bool :=
  match s with
  | String c _ => Ascii.eqb c "/"%char
  | EmptyString => false
  end.

Definition keep_part (w : string) : bool :=
  negb (String.eqb w "") && negb (String.eqb w ".").

(** [Path(s)]: empty components and ["."] components are dropped. (A path
    that starts with exactly two slashes keeps them in Python; here every
    run of leading slashes is the root.) *)
Definition path_of_string (s : string) : Path :=
  mkPath (starts_with_slash s) (List.filter keep_part (split_on "/"%char s)).

(** [Path.name] *)
Definition name (p : Path) : string := List.last (parts p) "".

(** [s.rfind(".")], as the offset of the last dot. *)
Fixpoint rfind_dot (s : string) : option nat :=
  match s with
  | EmptyString => None
  | String c s' =>
      match rfind_dot s' with
      | Some i => Some (S i)
      | None => if Ascii.eqb c "."%char then Some 0 else None
      end
  end.

(** [Path.suffix] of a final component: the text from the last dot, unless
    that dot is the first or the last character. *)
Definition suffix_of (nm : string) : string :=
  match rfind_dot nm with
  | Some i =>
      if (0 <? i) && (i <? String.length nm - 1)
      then String.substring i (String.length nm - i) nm
      else ""
  | None => ""
  end.

(** [Path.with_suffix(suffix)] for a well-formed [suffix] such as [".csv"]. *)
Definition with_suffix (p : Path) (suffix : string) : result Path :=
  let nm := name p in
  if String.eqb nm "" then Raise ValueError
  else
    let old := suffix_of nm in
    let nm' :=
      if String.eqb old "" then nm +:+ suffix
      else String.substring 0 (String.length nm - String.length old) nm +:+ suffix in
    Ok (mkPath (root p) (List.removelast (parts p) ++ [nm'])).

(** Resolution of [".."] components against the components already seen. *)
Fixpoint normalize (seen : list string) (todo : list string) : list string :=
  match todo with
  | [] => seen
  | w :: todo' =>
      if String.eqb w ".." then normalize (List.removelast seen) todo'
      else normalize (seen ++ [w]) todo'
  end.

(** [Path.joinpath(a, b)]: an absolute [b] replaces [a]. *)
Definition joinpath (a b : Path) : Path :=
  if root b then b else mkPath (root a) (parts a ++ parts b).

(** [Path.parent] *)
Definition parent (p : Path) : Path :=
  mkPath (root p) (List.removelast (parts p)).

(** [p] lies strictly below the directory [d]. *)
Definition inside (d p : Path) : bool :=
  Bool.eqb (root d) (root p)
  && (length (parts d) <? length (parts p))
  && bool_decide (take (length (parts d)) (parts p) = parts d).

Definition ends_with (suf s : string) : bool :=
  (String.length suf <=? String.length s)
  && String.eqb
       (String.substring (String.length s - String.length suf) (String.length suf) s)
       suf.

(** ** The environment of an export call *)

(** The collaborators of the module that are not part of it: the API client
    ([robin_stocks.robinhood.helper], [orders], [stocks], [crypto]), the
    process state the file system calls read (working directory, existing
    directories, existing files that are not directories),
    [date.today().strftime("%b-%d-%Y")], and Python's [float(str)]. *)
Record Env : Type := mkEnv {
  LOGGED_IN : bool;
  cwd : list string;
  is_dir : Path -> bool;
  is_file : Path -> bool;
  today : string;
  float_of_string : string -> option float;
  get_all_stock_orders : value -> result value;
  get_all_crypto_orders : result value;
  get_all_option_orders : result value;
  get_symbol_by_url : value -> result value;
  get_crypto_quote_from_id : value -> string -> result value;
  request_get : value -> result value
}.

(** ** Path construction *)

Section PathResolver.
Context (E : Env).

(** [Path.resolve()], not strict (the default): a relative path is
    completed by the working directory and [".."] components are resolved;
    no component has to exist and nothing is raised for one that does
    not. (A path with a NUL character, which no file name holds and which
    [Path.resolve()] refuses with [ValueError], is not covered: the
    properties of the errors of an export leave such strings out.) *)
Definition resolve (p : Path) : Path :=
  mkPath true (normalize [] ((if root p then [] else cwd E) ++ parts p)).

Definition fix_file_extension (file_name : string) : result Path :=
  let path := path_of_string file_name in
  path ← with_suffix path ".csv";
  mret (resolve path).

(** [not file_name] *)
Definition falsy (file_name : option string) : bool :=
  match file_name with
  | None => true
  | Some s => String.eqb s ""
  end.

(** When no name is given, [file_name] is assigned the name with today's
    date and then, at once, the name without it. *)
Definition create_absolute_csv
    (dir_path : string) (file_name : option string) (order_type : string)
    : result Path :=
  let path := path_of_string dir_path in
  let directory := resolve path in
  if falsy file_name
  then
    let file_name := order_type +:+ "_orders_" +:+ today E +:+ ".csv" in
    let file_name := order_type +:+ "_orders.csv" in
    mret (joinpath directory (path_of_string file_name))
  else
    file_name ← fix_file_extension (default "" file_name);
    mret (joinpath directory file_name).

(** The walk of the kernel along the components [todo] below [seen]: the
    first ancestor that is not a directory, if there is one. *)
Fixpoint first_obstacle (r : bool) (seen todo : list string) : option Path :=
  match todo with
  | [] => None
  | w :: todo' =>
      if is_dir E (mkPath r seen) then first_obstacle r (seen ++ [w]) todo'
      else Some (mkPath r seen)
  end.

(** What [open] raises when the directory of the file is not there: the walk
    stops at the first ancestor that is not a directory, with [ENOTDIR] when
    that ancestor is a file and with [ENOENT] when it does not exist. *)
Definition open_failure (file_path : Path) : exn :=
  match first_obstacle (root file_path) [] (parts file_path) with
  | Some d =>
      if is_file E d then NotADirectoryError file_path
      else FileNotFoundError file_path
  | None => FileNotFoundError file_path
  end.

(** [open(file_path, "w")]: the directory of the file has to exist and the
    path must not name a directory. (Permissions are not modelled.) *)
Definition open_w (file_path : Path) : prog unit :=
  if negb (is_dir E (parent file_path)) then raise (open_failure file_path)
  else if is_dir E file_path then raise (IsADirectoryError file_path)
  else emit (EvOpen file_path).

End PathResolver.

(** ** Weighted average over the executions of an option leg *)

(** numpy adds the entries of a binary64 array by pairwise summation
    ([DOUBLE_pairwise_sum]), in three cases by the number of entries. *)

(** The entries added one by one, from left to right, to [acc]. *)
Definition sum_from (acc : float) (xs : list float) : float := fold_left fadd xs acc.

(** From 8 to 128 entries: 8 accumulators, which start as the first 8
    entries, take the next entries 8 by 8. *)
Fixpoint unrolled (groups : nat) (r xs : list float) : list float * list float :=
  match groups with
  | O => (r, xs)
  | S g => unrolled g (zip_with fadd r (take 8 xs)) (drop 8 xs)
  end.

(** [((r0 + r1) + (r2 + r3)) + ((r4 + r5) + (r6 + r7))] *)
Definition add8 (r : list float) : float :=
  match r with
  | [r0; r1; r2; r3; r4; r5; r6; r7] =>
      fadd (fadd (fadd r0 r1) (fadd r2 r3)) (fadd (fadd r4 r5) (fadd r6 r7))
  | _ => sum_from neg_zero r
  end.

(** The accumulators are added two by two, then the entries that are left
    over (fewer than 8) one by one. *)
Definition pairwise_block (xs : list float) : float :=
  let '(r, rest) := unrolled (length xs / 8 - 1) (take 8 xs) (drop 8 xs) in
  sum_from (add8 r) rest.

(** Fewer than 8 entries are added one by one, starting from [-0.0]. More
    than 128 entries: the array is cut near the middle, at a multiple of 8,
    and the sums of the halves are added. [fuel] bounds the depth of the
    cuts; the length of the list is enough. *)
Fixpoint pairwise_sum (fuel : nat) (xs : list float) : float :=
  let n := length xs in
  if n <? 8 then sum_from neg_zero xs
  else if n <=? 128 then pairwise_block xs
  else
    match fuel with
    | S fuel' =>
        let n2 := (n / 2 - (n / 2) mod 8)%nat in
        fadd (pairwise_sum fuel' (take n2 xs)) (pairwise_sum fuel' (drop n2 xs))
    | O => pairwise_block xs
    end.

(** [numpy.ndarray.sum] of a binary64 array: the reduction starts from the
    unit [0.0] of the addition and adds the pairwise sum to it. *)
Definition np_sum (xs : list float) : float :=
  fadd zero (pairwise_sum (length xs) xs).

(** [pandas.Series.sum] ([nansum], with [skipna]): [NaN] entries are
    replaced by [0.0], then numpy adds. *)
Definition pd_sum (xs : list float) : float :=
  np_sum (map (fun x => if is_nan x then zero else x) xs).

(** [numpy.average(a, weights=w)] for two columns of one frame. *)
Definition np_average (a w : list float) : result float :=
  let scl := np_sum w in
  if is_zero scl then Raise ZeroDivisionError
  else Ok (fdiv (np_sum (zip_with fmul a w)) scl).

(** [pandas.DataFrame(data)] for a list of records: the rows of the frame;
    [None] gives the frame without rows and columns. Other shapes of [data]
    are outside this development. *)
Fixpoint records (l : list value) : result (list dict) :=
  match l with
  | [] => Ok []
  | VDict d :: l' => ds ← records l'; mret (d :: ds)
  | _ :: _ => Raise OutsideModel
  end.

Definition DataFrame (data : value) : result (list dict) :=
  match data with
  | VList l => records l
  | VNone => Ok []
  | _ => Raise OutsideModel
  end.

(** [df[col]]: the frame has a column for every key of some record; a
    record without the key holds [NaN] there. *)
Definition column (df : list dict) (col : string) : result (list value) :=
  if existsb (fun d => bool_decide (is_Some (d !! col))) df
  then Ok (map (fun d => default (VNum NaN) (d !! col)) df)
  else Raise (KeyError col).

Section Aggregator.
Context (E : Env).

(** Conversion of one entry of a column by [astype(float)]; an integer is
    rounded to the nearest binary64 number, and refused when that is not
    finite. *)
Definition to_float (v : value) : result float :=
  match v with
  | VNone => Ok NaN
  | VBool b => Ok (float_of_Z (if b then 1 else 0))
  | VInt z => if is_inf (float_of_Z z) then Raise OverflowError
              else Ok (float_of_Z z)
  | VNum x => Ok x
  | VStr s => match float_of_string E s with
              | Some x => Ok x
              | None => Raise ValueError
              end
  | VList _ => Raise ValueError
  | VDict _ => Raise TypeError
  end.

Fixpoint astype_float (xs : list value) : result (list float) :=
  match xs with
  | [] => Ok []
  | v :: xs' => x ← to_float v; ys ← astype_float xs'; mret (x :: ys)
  end.

(** Lines 190-194 of [export_completed_option_orders]: total quantity and
    average price of the executions of one leg. *)
Definition aggregate (executions : value) : result (float * float) :=
  df ← DataFrame executions;
  price ← column df "price";
  price ← astype_float price;
  quantity ← column df "quantity";
  quantity ← astype_float quantity;
  let total_quantity := pd_sum quantity in
  avg_price ← np_average price quantity;
  mret (total_quantity, avg_price).

End Aggregator.

(** ** The three exports *)

Section Procedures.
Context (E : Env).

(** Modelled from the spec: the decorator [login_required] of
    [robin_stocks.robinhood.helper], "a process-wide authenticated-session
    guard decorating each export entry point". *)
Definition login_required {A} (f : prog A) : prog A :=
  if LOGGED_IN E then f else raise NotLoggedIn.

(** A call of the API client: the request is observable, its answer is
    the environment's. *)
Definition call (endpoint : string) (args : list value) (answer : result value)
    : prog value :=
  emit (EvRequest endpoint args);; lift answer.

Definition item (v : value) (key : string) : prog value := lift (getitem v key).

Definition writerow (row : list value) : prog unit := emit (EvWriteRow row).

(** [with open(file_path, "w", newline="") as f: body]; the file is closed
    when the block is left, normally or by an exception. *)
Definition with_open (file_path : Path) (body : prog unit) : prog unit :=
  open_w E file_path;; (trace body ++ [EvClose], outcome body).

Definition stock_header : list value :=
  [VStr "symbol"; VStr "date"; VStr "order_type"; VStr "side"; VStr "fees";
   VStr "quantity"; VStr "average_price"].

(** The row written for one execution of a cancelled stock order. *)
Definition stock_partial_row (order partial : value) : prog unit :=
  instrument ← item order "instrument";
  symbol ← call "get_symbol_by_url" [instrument] (get_symbol_by_url E instrument);
  timestamp ← item partial "timestamp";
  type ← item order "type";
  side ← item order "side";
  fees ← item order "fees";
  quantity ← item partial "quantity";
  price ← item partial "price";
  writerow [symbol; timestamp; type; side; fees; quantity; price].

(** The row written for a filled stock order. *)
Definition stock_filled_row (order : value) : prog unit :=
  instrument ← item order "instrument";
  symbol ← call "get_symbol_by_url" [instrument] (get_symbol_by_url E instrument);
  last_transaction_at ← item order "last_transaction_at";
  type ← item order "type";
  side ← item order "side";
  fees ← item order "fees";
  quantity ← item order "quantity";
  average_price ← item order "average_price";
  writerow [symbol; last_transaction_at; type; side; fees; quantity; average_price].

(** The body of the loop over the stock orders (lines 74-101). *)
Definition stock_order (order : value) : prog unit :=
  state ← item order "state";
  partially_executed ←
    (if eq_str state "cancelled"
     then executions ← item order "executions";
          n ← lift (len executions);
          mret (0 <? n)
     else mret false);
  (if partially_executed : bool
   then executions ← item order "executions";
        partials ← lift (iter executions);
        for_each partials (stock_partial_row order)
   else mret tt);;
  state ← item order "state";
  completed ←
    (if eq_str state "filled"
     then cancel ← item order "cancel"; mret (is_None cancel)
     else mret false);
  if completed : bool then stock_filled_row order else mret tt.

Definition export_completed_stock_orders
    (dir_path : string) (file_name : option string) (account_number : value)
    : prog unit :=
  login_required (
    file_path ← lift (create_absolute_csv E dir_path file_name "stock");
    all_orders ← call "get_all_stock_orders" [account_number]
                      (get_all_stock_orders E account_number);
    with_open file_path (
      writerow stock_header;;
      orders ← lift (iter all_orders);
      for_each orders stock_order)).

(** The body of the loop over the crypto orders (lines 131-147). *)
Definition crypto_order (order : value) : prog unit :=
  state ← item order "state";
  completed ←
    (if eq_str state "filled"
     then cancel_url ← item order "cancel_url"; mret (is_None cancel_url)
     else mret false);
  if completed : bool
  then
    fees ← match getitem order "fees" with
           | Ok fees => mret fees
           | Raise (KeyError _) => mret (VNum zero)
           | Raise e => raise e
           end;
    currency_pair_id ← item order "currency_pair_id";
    symbol ← call "get_crypto_quote_from_id" [currency_pair_id; VStr "symbol"]
                  (get_crypto_quote_from_id E currency_pair_id "symbol");
    last_transaction_at ← item order "last_transaction_at";
    type ← item order "type";
    side ← item order "side";
    quantity ← item order "quantity";
    average_price ← item order "average_price";
    writerow [symbol; last_transaction_at; type; side; fees; quantity; average_price]
  else mret tt.

Definition export_completed_crypto_orders
    (dir_path : string) (file_name : option string) : prog unit :=
  login_required (
    file_path ← lift (create_absolute_csv E dir_path file_name "crypto");
    all_orders ← call "get_all_crypto_orders" [] (get_all_crypto_orders E);
    with_open file_path (
      writerow stock_header;;
      orders ← lift (iter all_orders);
      for_each orders crypto_order)).

Definition option_header : list value :=
  [VStr "chain_symbol"; VStr "expiration_date"; VStr "strike_price";
   VStr "option_type"; VStr "option_id"; VStr "side"; VStr "order_created_at";
   VStr "direction"; VStr "order_quantity"; VStr "order_type";
   VStr "opening_strategy"; VStr "closing_strategy"; VStr "price";
   VStr "processed_quantity"; VStr "fees"].

(** The row written for one leg of a filled option order (lines 187-214). *)
Definition option_leg_row (order leg : value) : prog unit :=
  option ← item leg "option";
  instrument_data ← call "request_get" [option] (request_get E option);
  executions ← item leg "executions";
  '(total_quantity, avg_price) ← lift (aggregate E executions);
  chain_symbol ← item order "chain_symbol";
  expiration_date ← item instrument_data "expiration_date";
  strike_price ← item instrument_data "strike_price";
  option_type ← item instrument_data "type";
  option_id ← item instrument_data "id";
  side ← item leg "side";
  created_at ← item order "created_at";
  direction ← item order "direction";
  type ← item order "type";
  opening_strategy ← item order "opening_strategy";
  closing_strategy ← item order "closing_strategy";
  processed_quantity ← item order "processed_quantity";
  regulatory_fees ← item order "regulatory_fees";
  writerow [chain_symbol; expiration_date; strike_price; option_type; option_id;
            side; created_at; direction; VNum total_quantity; type;
            opening_strategy; closing_strategy; VNum avg_price;
            processed_quantity; regulatory_fees].

(** The body of the loop over the option orders (lines 184-214). *)
Definition option_order (order : value) : prog unit :=
  state ← item order "state";
  if eq_str state "filled"
  then legs ← item order "legs";
       legs ← lift (iter legs);
       for_each legs (option_leg_row order)
  else mret tt.

Definition export_completed_option_orders
    (dir_path : string) (file_name : option string) : prog unit :=
  login_required (
    file_path ← lift (create_absolute_csv E dir_path file_name "option");
    all_orders ← call "get_all_option_orders" [] (get_all_option_orders E);
    with_open file_path (
      writerow option_header;;
      orders ← lift (iter all_orders);
      for_each orders option_order)).

(** The common shape of the three exports: resolve the path, fetch the
    orders, open the file, write the header, loop over the orders. *)
Definition export_with (order_type : string) (endpoint : string)
    (args : list value) (answer : result value) (header : list value)
    (body : value → prog unit) (dir_path : string) (file_name : option string)
    : prog unit :=
  login_required (
    file_path ← lift (create_absolute_csv E dir_path file_name order_type);
    all_orders ← call endpoint args answer;
    with_open file_path (
      writerow header;;
      orders ← lift (iter all_orders);
      for_each orders body)).

End Procedures.

(** ** Vocabulary of the properties *)

(** The three fields the stock export reads from one execution. *)
Definition execution_fields (partial : value) : option (value * value * value) :=
  match partial with
  | VDict e =>
      match e !! "timestamp", e !! "quantity", e !! "price" with
      | Some t, Some q, Some p => Some (t, q, p)
      | _, _, _ => None
      end
  | _ => None
  end.

(** A cancelled stock order is partially executed when [len] of its
    executions is positive. *)
Definition partially_executed (order : value) : Prop :=
  getitem order "state" = Ok (VStr "cancelled")
  ∧ ∃ n, (getitem order "executions" ≫= len) = Ok (S n).

(** Price and quantity of an execution record whose two fields convert to
    binary64 numbers. *)
Definition price_quantity (E : Env) (execution : value) : option (float * float) :=
  match execution with
  | VDict e =>
      match e !! "price", e !! "quantity" with
      | Some pv, Some qv =>
          match to_float E pv, to_float E qv with
          | Ok p, Ok q => Some (p, q)
          | _, _ => None
          end
      | _, _ => None
      end
  | _ => None
  end.

(** The error [e] tells the empty list of executions apart: it is raised
    for the empty list and for no other list. *)
Definition signals_empty (E : Env) (e : exn) : Prop :=
  aggregate E (VList []) = Raise e
  ∧ ∀ executions, executions ≠ [] → aggregate E (VList executions) ≠ Raise e.

(** Two environments that answer every lookup alike. *)
Definition same_lookups (E E' : Env) : Prop :=
  (∀ url, get_symbol_by_url E url = get_symbol_by_url E' url)
  ∧ (∀ id info, get_crypto_quote_from_id E id info = get_crypto_quote_from_id E' id info)
  ∧ (∀ url, request_get E url = request_get E' url)
  ∧ (∀ s, float_of_string E s = float_of_string E' s).

(** [c in s] *)
Fixpoint contains (c : Ascii.ascii) (s : string) : bool :=
  match s with
  | EmptyString => false
  | String c' s' => Ascii.eqb c' c || contains c s'
  end.

(** The actions a loop body performs: requests and rows. *)
Definition row_or_request (ev : event) : Prop :=
  match ev with
  | EvRequest _ _ | EvWriteRow _ => True
  | EvOpen _ | EvClose => False
  end.

(** Every row among the actions has [n] fields. *)
Definition width (n : nat) (ev : event) : Prop :=
  match ev with
  | EvWriteRow row => length row = n
  | _ => True
  end.

(** [open(p, "w")] succeeds. *)
Definition writable (E : Env) (p : Path) : Prop :=
  is_dir E (parent p) = true ∧ is_dir E p = false.

(** ** Concrete environments and records used in the examples *)

Definition num (n : Z) : value := VNum (float_of_Z n).

Definition existing_dirs : list Path :=
  [mkPath true []; mkPath true ["home"]; mkPath true ["home"; "user"];
   mkPath true ["home"; "user"; "out"]].

Definition existing_files : list Path :=
  [mkPath true ["home"; "user"; "notes.txt"]].

Definition env0 : Env := {|
  LOGGED_IN := true;
  cwd := ["home"; "user"];
  is_dir := fun p => bool_decide (p ∈ existing_dirs);
  is_file := fun p => bool_decide (p ∈ existing_files);
  today := "Nov-04-2026";
  float_of_string := fun _ => None;
  get_all_stock_orders := fun _ => Ok (VList []);
  get_all_crypto_orders := Ok (VList []);
  get_all_option_orders := Ok (VList []);
  get_symbol_by_url := fun _ => Ok (VStr "AAPL");
  get_crypto_quote_from_id := fun _ _ => Ok (VStr "BTCUSD");
  request_get := fun _ =>
    Ok (VDict (list_to_map
      [("expiration_date", VStr "2024-01-19"); ("strike_price", VStr "150.0000");
       ("type", VStr "call"); ("id", VStr "opt-1")]))
|}.

Definition exec (timestamp : string) (price quantity : Z) : value :=
  VDict (list_to_map
    [("timestamp", VStr timestamp); ("price", num price); ("quantity", num quantity)]).

Definition filled_stock : dict :=
  list_to_map
    [("state", VStr "filled"); ("cancel", VNone); ("instrument", VStr "url:aapl");
     ("last_transaction_at", VStr "t9"); ("type", VStr "market"); ("side", VStr "buy");
     ("fees", num 0); ("quantity", num 10); ("average_price", num 150);
     ("executions", VList [exec "t9" 150 10])].

Definition cancelled_stock : dict :=
  list_to_map
    [("state", VStr "cancelled"); ("cancel", VNone); ("instrument", VStr "url:aapl");
     ("last_transaction_at", VStr "t2"); ("type", VStr "limit"); ("side", VStr "buy");
     ("fees", num 0); ("quantity", num 9); ("average_price", VNone);
     ("executions", VList [exec "t1" 100 3; exec "t2" 105 2])].

Definition marked_stock : dict :=
  <["cancel" := VStr "url:cancel"]> filled_stock.

Definition filled_crypto : dict :=
  list_to_map
    [("state", VStr "filled"); ("cancel_url", VNone); ("currency_pair_id", VStr "pair-1");
     ("last_transaction_at", VStr "t5"); ("type", VStr "market"); ("side", VStr "sell");
     ("quantity", num 1); ("average_price", num 30000)].

Definition cancelled_crypto : dict :=
  <["state" := VStr "cancelled"]>
    (<["executions" := VList [exec "t4" 30000 1]]> filled_crypto).

Definition marked_crypto : dict :=
  <["cancel_url" := VStr "url:cancel"]> filled_crypto.

Definition leg (side : string) (executions : list value) : value :=
  VDict (list_to_map
    [("option", VStr "url:opt-1"); ("side", VStr side);
     ("executions", VList executions)]).

Definition filled_option : dict :=
  list_to_map
    [("state", VStr "filled"); ("chain_symbol", VStr "AAPL");
     ("created_at", VStr "t0"); ("direction", VStr "debit"); ("type", VStr "limit");
     ("opening_strategy", VStr "long_call"); ("closing_strategy", VNone);
     ("processed_quantity", num 4); ("regulatory_fees", num 0);
     ("legs", VList [leg "buy" [exec "t1" 10 2; exec "t2" 20 2]])].

(** The scenario of the specification: one filled stock order and one
    cancelled order with two executions. *)
Definition env1 : Env := {|
  LOGGED_IN := true;
  cwd := ["srv"];
  is_dir := fun p => bool_decide (p = mkPath true ["srv"; "out"]);
  is_file := fun _ => false;
  today := "Jan-02-2024";
  float_of_string := float_of_string env0;
  get_all_stock_orders := fun _ => Ok (VList [VDict filled_stock; VDict cancelled_stock]);
  get_all_crypto_orders := Ok (VList [VDict filled_crypto; VDict cancelled_crypto]);
  get_all_option_orders := Ok (VList [VDict filled_option]);
  get_symbol_by_url := get_symbol_by_url env0;
  get_crypto_quote_from_id := get_crypto_quote_from_id env0;
  request_get := request_get env0
|}.

(** An environment whose order source is down. *)
Definition env_down : Env := {|
  LOGGED_IN := true;
  cwd := cwd env0;
  is_dir := is_dir env0;
  is_file := is_file env0;
  today := today env0;
  float_of_string := float_of_string env0;
  get_all_stock_orders := fun _ => Raise (RequestFailed "get_all_stock_orders");
  get_all_crypto_orders := Raise (RequestFailed "get_all_crypto_orders");
  get_all_option_orders := Raise (RequestFailed "get_all_option_orders");
  get_symbol_by_url := get_symbol_by_url env0;
  get_crypto_quote_from_id := get_crypto_quote_from_id env0;
  request_get := request_get env0
|}.

(** An environment whose second stock order is not a record. *)
Definition env_broken : Env := {|
  LOGGED_IN := true;
  cwd := cwd env0;
  is_dir := is_dir env0;
  is_file := is_file env0;
  today := today env0;
  float_of_string := float_of_string env0;
  get_all_stock_orders := fun _ =>
    Ok (VList [VDict filled_stock; VNone; VDict cancelled_stock]);
  get_all_crypto_orders := get_all_crypto_orders env0;
  get_all_option_orders := get_all_option_orders env0;
  get_symbol_by_url := get_symbol_by_url env0;
  get_crypto_quote_from_id := get_crypto_quote_from_id env0;
  request_get := request_get env0
|}.

Definition stock_without_fees : dict := delete "fees" filled_stock.

Definition cancelled_unexecuted : dict :=
  <["executions" := VList []]> cancelled_stock.

Definition leg_unexecuted : dict :=
  list_to_map
    [("option", VStr "url:opt-1"); ("side", VStr "buy"); ("executions", VList [])].

(** [0.1], the binary64 number nearest to one tenth. *)
Definition tenth : float := fdiv (float_of_Z 1) (float_of_Z 10).

Definition execution (price quantity : value) : value :=
  VDict (list_to_map [("price", price); ("quantity", quantity)]).

Definition priced : dict := list_to_map [("price", num 10); ("quantity", num 2)].
Definition unpriced : dict := {["quantity" := num 3]}.
Definition price_only : dict := {["price" := num 10]}.

(** * Properties *)

(** ** Laws of programs *)

Section ProgLaws.
Context {A B : Type}.
Implicit Types (m : prog A) (k : A → prog B).

Lemma bind_unfold m k :
  m ≫= k =
    match outcome m with
    | Ok a => (trace m ++ trace (k a), outcome (k a))
    | Raise e => (trace m, Raise e)
    end.
Proof.
  destruct m as [t [a|e]]; cbn; [|reflexivity].
  unfold mbind, prog_bind. destruct (k a); reflexivity.
Qed.

Lemma bind_lift_ok (a : A) k : lift (Ok a) ≫= k = k a.
Proof. rewrite bind_unfold. cbn. destruct (k a); reflexivity. Qed.

Lemma bind_lift_raise e k : lift (Raise e : result A) ≫= k = raise e.
Proof. reflexivity. Qed.

Lemma bind_ret (a : A) k : mret a ≫= k = k a.
Proof. apply bind_lift_ok. Qed.

Lemma bind_raise e k : (raise e : prog A) ≫= k = raise e.
Proof. reflexivity. Qed.

End ProgLaws.

Lemma bind_emit {B} ev (k : unit → prog B) :
  emit ev ≫= k = (ev :: trace (k tt), outcome (k tt)).
Proof. rewrite bind_unfold. reflexivity. Qed.

Lemma written_app t1 t2 : written (t1 ++ t2) = written t1 ++ written t2.
Proof.
  induction t1 as [|[] t1 IH]; cbn; rewrite ?IH; reflexivity.
Qed.

Lemma item_dict (d : dict) key v :
  d !! key = Some v → item (VDict d) key = lift (Ok v).
Proof. intros H. unfold item, getitem. rewrite H. reflexivity. Qed.

Lemma bind_call_ok {B} endpoint args answer v (k : value → prog B) :
  answer = Ok v →
  call endpoint args answer ≫= k
  = (EvRequest endpoint args :: trace (k v), outcome (k v)).
Proof.
  intros ->. unfold call, emit, lift, mbind, prog_bind. cbn.
  destruct (k v); reflexivity.
Qed.

(** Evaluation of a program whose dictionary lookups are given by
    hypotheses. *)
Ltac step :=
  first
    [ rewrite bind_lift_ok
    | rewrite bind_ret
    | rewrite bind_emit
    | match goal with
      | H : ?d !! ?key = Some ?v |- _ => rewrite (item_dict d key v H)
      end
    | erewrite bind_call_ok by eassumption
    | progress cbn [eq_str is_None len iter String.eqb Ascii.eqb Bool.eqb
                    trace outcome writerow written requests app fst snd] ].
Ltac run := repeat step.

(** A loop whose every iteration completes writes the rows of its
    iterations one after the other. *)
Lemma for_each_written {A} (l : list A) (body : A → prog unit) rows :
  Forall2 (λ x r, written (trace (body x)) = r ∧ outcome (body x) = Ok tt) l rows →
  written (trace (for_each l body)) = concat rows
  ∧ outcome (for_each l body) = Ok tt.
Proof.
  induction 1 as [|x r l rows [Hw Ho] _ [IHw IHo]]; cbn [for_each concat].
  - split; reflexivity.
  - rewrite bind_unfold, Ho. cbn [trace outcome fst snd].
    rewrite written_app, Hw, IHw, IHo. split; reflexivity.
Qed.

Lemma eq_str_true v s : eq_str v s = true ↔ v = VStr s.
Proof.
  destruct v; cbn; try (split; [discriminate|intros [=]]).
  rewrite String.eqb_eq. split; [intros ->|intros [=]]; congruence.
Qed.

Lemma is_None_true v : is_None v = true ↔ v = VNone.
Proof. destruct v; cbn; split; congruence. Qed.

(** ** Stock and crypto rows *)

Section Rows.
Context (E : Env).

(** C2. A filled order with a [None] cancellation marker (["cancel"] in
    the stock export, ["cancel_url"] in the crypto export) makes the loop
    body write exactly one row: the symbol looked up for the order, then
    the order's own last-transaction timestamp, type, side, fees, quantity
    and average price, in that order. *)
Theorem filled_order_emits_own_row (d : dict) sym ts ty side fees q ap :
  d !! "state" = Some (VStr "filled") →
  d !! "last_transaction_at" = Some ts →
  d !! "type" = Some ty →
  d !! "side" = Some side →
  d !! "fees" = Some fees →
  d !! "quantity" = Some q →
  d !! "average_price" = Some ap →
  (∀ instrument,
     d !! "cancel" = Some VNone →
     d !! "instrument" = Some instrument →
     get_symbol_by_url E instrument = Ok sym →
     written (trace (stock_order E (VDict d))) = [[sym; ts; ty; side; fees; q; ap]]
     ∧ outcome (stock_order E (VDict d)) = Ok tt)
  ∧ (∀ currency_pair_id,
     d !! "cancel_url" = Some VNone →
     d !! "currency_pair_id" = Some currency_pair_id →
     get_crypto_quote_from_id E currency_pair_id "symbol" = Ok sym →
     written (trace (crypto_order E (VDict d))) = [[sym; ts; ty; side; fees; q; ap]]
     ∧ outcome (crypto_order E (VDict d)) = Ok tt).
Proof.
  intros Hstate Hts Hty Hside Hfees Hq Hap. split.
  - intros instrument Hcancel Hinstr Hsym.
    unfold stock_order, stock_filled_row. run. split; reflexivity.
  - intros id Hcancel Hid Hsym.
    unfold crypto_order. run. cbn [getitem]. rewrite Hfees. run.
    split; reflexivity.
Qed.

(** C8 (as amended). A filled crypto order whose ["cancel_url"] is [None]
    and whose record has no ["fees"] key still gets its row, with [0.0] in
    the fees column, and the loop body completes normally. *)
Theorem crypto_missing_fees_default (d : dict) currency_pair_id sym ts ty side q ap :
  d !! "state" = Some (VStr "filled") →
  d !! "cancel_url" = Some VNone →
  d !! "fees" = None →
  d !! "currency_pair_id" = Some currency_pair_id →
  get_crypto_quote_from_id E currency_pair_id "symbol" = Ok sym →
  d !! "last_transaction_at" = Some ts →
  d !! "type" = Some ty →
  d !! "side" = Some side →
  d !! "quantity" = Some q →
  d !! "average_price" = Some ap →
  written (trace (crypto_order E (VDict d)))
    = [[sym; ts; ty; side; VNum zero; q; ap]]
  ∧ outcome (crypto_order E (VDict d)) = Ok tt.
Proof.
  intros Hstate Hcancel Hfees Hid Hsym Hts Hty Hside Hq Hap.
  unfold crypto_order. run. cbn [getitem]. rewrite Hfees. run.
  split; reflexivity.
Qed.

(** C9. A stock order in state ["filled"] whose ["cancel"] field is not
    [None] writes no row: the loop body does nothing and completes. *)
Theorem filled_with_cancel_marker_no_row (d : dict) cancel :
  d !! "state" = Some (VStr "filled") →
  d !! "cancel" = Some cancel →
  cancel ≠ VNone →
  written (trace (stock_order E (VDict d))) = []
  ∧ outcome (stock_order E (VDict d)) = Ok tt.
Proof.
  intros Hstate Hcancel Hne.
  unfold stock_order. run.
  destruct cancel; try congruence; run; split; reflexivity.
Qed.

Lemma stock_partial_row_written (d : dict) instrument sym ty side fees partial t q p :
  d !! "instrument" = Some instrument →
  get_symbol_by_url E instrument = Ok sym →
  d !! "type" = Some ty →
  d !! "side" = Some side →
  d !! "fees" = Some fees →
  execution_fields partial = Some (t, q, p) →
  written (trace (stock_partial_row E (VDict d) partial))
    = [[sym; t; ty; side; fees; q; p]]
  ∧ outcome (stock_partial_row E (VDict d) partial) = Ok tt.
Proof.
  intros Hinstr Hsym Hty Hside Hfees Hex.
  destruct partial as [| | | | |l|e]; try discriminate Hex.
  cbn [execution_fields] in Hex.
  destruct (e !! "timestamp") as [t'|] eqn:Ht; [|discriminate].
  destruct (e !! "quantity") as [q'|] eqn:Hq; [|discriminate].
  destruct (e !! "price") as [p'|] eqn:Hp; [|discriminate].
  injection Hex as -> -> ->.
  unfold stock_partial_row. run. split; reflexivity.
Qed.

(** C3. A stock order in state ["cancelled"] with a non-empty list of
    executions makes the loop body write one row per execution, in the
    order of the executions: the symbol looked up for the order, the
    execution's timestamp, the order's type, side and fees, and the
    execution's quantity and price. *)
Theorem cancelled_order_row_per_execution
    (d : dict) (executions : list value) instrument sym ty side fees
    (fields : list (value * value * value)) :
  d !! "state" = Some (VStr "cancelled") →
  d !! "executions" = Some (VList executions) →
  executions ≠ [] →
  d !! "instrument" = Some instrument →
  get_symbol_by_url E instrument = Ok sym →
  d !! "type" = Some ty →
  d !! "side" = Some side →
  d !! "fees" = Some fees →
  Forall2 (λ partial f, execution_fields partial = Some f) executions fields →
  written (trace (stock_order E (VDict d)))
    = map (λ '(t, q, p), [sym; t; ty; side; fees; q; p]) fields
  ∧ length (written (trace (stock_order E (VDict d)))) = length executions
  ∧ outcome (stock_order E (VDict d)) = Ok tt.
Proof.
  intros Hstate Hexs Hne Hinstr Hsym Hty Hside Hfees Hfields.
  assert (written (trace (for_each executions (stock_partial_row E (VDict d))))
            = concat (map (λ '(t, q, p), [[sym; t; ty; side; fees; q; p]]) fields)
          ∧ outcome (for_each executions (stock_partial_row E (VDict d))) = Ok tt)
    as [Hw Ho].
  { apply for_each_written. clear Hexs Hne.
    induction Hfields as [|partial [[t q] p] exs fs Hf _ IH]; constructor.
    - eapply stock_partial_row_written; eassumption.
    - exact IH. }
  assert (concat (map (λ '(t, q, p), [[sym; t; ty; side; fees; q; p]]) fields)
          = map (λ '(t, q, p), [sym; t; ty; side; fees; q; p]) fields) as Hflat.
  { clear. induction fields as [|[[t q] p] fs IH]; cbn; [|rewrite IH]; reflexivity. }
  assert (written (trace (stock_order E (VDict d)))
            = written (trace (for_each executions (stock_partial_row E (VDict d))))
          ∧ outcome (stock_order E (VDict d)) = Ok tt) as [Hrows Hout].
  { unfold stock_order. run.
    destruct executions as [|partial exs]; [congruence|].
    cbn [length Nat.ltb Nat.leb]. run.
    rewrite bind_unfold, Ho. cbn [trace outcome fst snd mret prog_ret].
    rewrite app_nil_r. split; reflexivity. }
  rewrite Hrows, Hw, Hflat. repeat split; [|exact Hout].
  rewrite length_map. symmetry. eapply Forall2_length. exact Hfields.
Qed.

(** C4. An order that is neither filled nor, in the stock export,
    cancelled with at least one execution writes no row. The crypto export
    writes a row only for a filled order whose ["cancel_url"] is [None];
    the option export only for a filled order. *)
Theorem other_orders_emit_no_row (order : value) :
  (getitem order "state" ≠ Ok (VStr "filled") →
   ¬ partially_executed order →
   written (trace (stock_order E order)) = [])
  ∧ (¬ (getitem order "state" = Ok (VStr "filled")
        ∧ getitem order "cancel_url" = Ok VNone) →
     written (trace (crypto_order E order)) = [])
  ∧ (getitem order "state" ≠ Ok (VStr "filled") →
     written (trace (option_order E order)) = []).
Proof.
  split; [|split].
  - intros Hfilled Hpartial.
    unfold stock_order, item.
    destruct (getitem order "state") as [st|e] eqn:Hst; [|reflexivity].
    rewrite !bind_lift_ok.
    assert (eq_str st "filled" = false) as Hf.
    { destruct (eq_str st "filled") eqn:Hf; [|reflexivity].
      apply eq_str_true in Hf. congruence. }
    rewrite Hf.
    destruct (eq_str st "cancelled") eqn:Hc.
    + apply eq_str_true in Hc. subst st.
      destruct (getitem order "executions") as [ex|e] eqn:Hex; [|reflexivity].
      rewrite !bind_lift_ok.
      destruct (len ex) as [[|n]|e] eqn:Hlen; [reflexivity| |reflexivity].
      exfalso. apply Hpartial. split; [assumption|].
      exists n. rewrite Hex. exact Hlen.
    + reflexivity.
  - intros Hnot.
    unfold crypto_order, item.
    destruct (getitem order "state") as [st|e] eqn:Hst; [|reflexivity].
    rewrite bind_lift_ok.
    destruct (eq_str st "filled") eqn:Hf; [|reflexivity].
    apply eq_str_true in Hf. subst st.
    destruct (getitem order "cancel_url") as [c|e] eqn:Hc; [|reflexivity].
    rewrite !bind_lift_ok, bind_ret.
    destruct (is_None c) eqn:Hn; [|reflexivity].
    apply is_None_true in Hn. subst c. exfalso. apply Hnot. split; reflexivity.
  - intros Hfilled.
    unfold option_order, item.
    destruct (getitem order "state") as [st|e] eqn:Hst; [|reflexivity].
    rewrite bind_lift_ok.
    destruct (eq_str st "filled") eqn:Hf; [|reflexivity].
    apply eq_str_true in Hf. congruence.
Qed.

End Rows.

(** ** The weighted average *)

Section Average.
Context (E : Env).

Lemma astype_float_ok (vs : list value) (xs : list float) :
  Forall2 (λ v x, to_float E v = Ok x) vs xs →
  astype_float E vs = Ok xs.
Proof.
  induction 1 as [|v x vs xs Hv _ IH]; cbn; [reflexivity|].
  rewrite Hv. cbn. rewrite IH. reflexivity.
Qed.

(** The frame built from records that all carry both fields. *)
Lemma frame_of_executions (executions : list value) (pq : list (float * float)) :
  Forall2 (λ ex x, price_quantity E ex = Some x) executions pq →
  ∃ df : list dict,
    records executions = Ok df
    ∧ Forall2 (λ (d : dict) x, ∃ pv qv,
                 d !! "price" = Some pv ∧ d !! "quantity" = Some qv
                 ∧ to_float E pv = Ok x.1 ∧ to_float E qv = Ok x.2)
              df pq.
Proof.
  induction 1 as [|ex [p q] exs pq Hex _ (df & Hdf & IH)].
  - exists []. split; [reflexivity|constructor].
  - destruct ex as [| | | | |l|e]; try discriminate Hex.
    cbn in Hex.
    destruct (e !! "price") as [pv|] eqn:Hp; [|discriminate].
    destruct (e !! "quantity") as [qv|] eqn:Hq; [|discriminate].
    destruct (to_float E pv) as [p'|] eqn:Hpv; try discriminate.
    destruct (to_float E qv) as [q'|] eqn:Hqv; try discriminate.
    injection Hex as -> ->.
    exists (e :: df). split.
    + cbn. rewrite Hdf. reflexivity.
    + constructor; [|exact IH]. exists pv, qv. auto.
Qed.

Lemma column_of_frame (df : list dict) (col : string) (xs : list float) :
  df ≠ [] →
  Forall2 (λ (d : dict) x, ∃ v, d !! col = Some v ∧ to_float E v = Ok x) df xs →
  ∃ vs, column df col = Ok vs ∧ Forall2 (λ v x, to_float E v = Ok x) vs xs.
Proof.
  intros Hne Hall.
  exists (map (fun d : dict => default (VNum NaN) (d !! col)) df). split.
  - unfold column.
    destruct Hall as [|d q df qs (v & Hv & _) _]; [congruence|].
    cbn [existsb]. rewrite Hv. reflexivity.
  - clear Hne. induction Hall as [|d q df qs (v & Hv & Hf) _ IH]; cbn; constructor.
    + rewrite Hv. exact Hf.
    + exact IH.
Qed.

(** Without a [NaN] entry, pandas' sum is numpy's. *)
Lemma pd_sum_np_sum (xs : list float) :
  Forall (λ x, is_nan x = false) xs → pd_sum xs = np_sum xs.
Proof.
  intros Hall. unfold pd_sum. f_equal.
  induction Hall as [|x xs Hx _ IH]; cbn [map]; [reflexivity|].
  rewrite Hx, IH. reflexivity.
Qed.

(** C1 (as amended). For a non-empty list of executions whose prices and
    quantities convert to binary64 numbers, the aggregation raises
    [ZeroDivisionError] when the quantities add up to zero, and otherwise
    returns the sum of the quantities and the quantity-weighted mean of the
    prices, [sum (price_i * quantity_i) / sum quantity_i], where the
    products, the quotient and the sums are the rounded ones of binary64,
    the sums taken in numpy's order; pandas' sum of the quantities is
    numpy's as soon as no quantity is [NaN]. *)
Theorem aggregate_weighted_average
    (executions : list value) (pq : list (float * float)) :
  Forall2 (λ ex x, price_quantity E ex = Some x) executions pq →
  executions ≠ [] →
  aggregate E (VList executions)
    = (if is_zero (np_sum (map snd pq)) then Raise ZeroDivisionError
       else Ok (pd_sum (map snd pq),
                fdiv (np_sum (zip_with fmul (map fst pq) (map snd pq)))
                     (np_sum (map snd pq))))
  ∧ (Forall (λ x, is_nan x.2 = false) pq →
     pd_sum (map snd pq) = np_sum (map snd pq)).
Proof.
  intros Hall Hne.
  destruct (frame_of_executions _ _ Hall) as (df & Hdf & Hrec).
  assert (df ≠ []) as Hdfne.
  { intros ->. destruct executions as [|[] ?]; cbn in Hdf; try congruence.
    destruct (records executions); discriminate. }
  destruct (column_of_frame df "price" (map fst pq) Hdfne) as (pvs & Hpc & Hpf).
  { clear -Hrec. induction Hrec as [|d x df pq (pv & qv & Hp & _ & Hpv & _) _ IH];
      cbn; constructor; eauto. }
  destruct (column_of_frame df "quantity" (map snd pq) Hdfne) as (qvs & Hqc & Hqf).
  { clear -Hrec. induction Hrec as [|d x df pq (pv & qv & _ & Hq & _ & Hqv) _ IH];
      cbn; constructor; eauto. }
  split.
  - unfold aggregate. cbn [DataFrame]. rewrite Hdf. cbn [mbind result_bind].
    rewrite Hpc. cbn [mbind result_bind].
    rewrite (astype_float_ok _ _ Hpf). cbn [mbind result_bind].
    rewrite Hqc. cbn [mbind result_bind].
    rewrite (astype_float_ok _ _ Hqf). cbn [mbind result_bind].
    unfold np_average.
    destruct (is_zero (np_sum (map snd pq))); reflexivity.
  - intros Hnan. apply pd_sum_np_sum.
    clear -Hnan. induction Hnan; cbn [map]; constructor; assumption.
Qed.

(** C6 (as amended). On the empty list of executions the aggregation
    raises [KeyError("price")]: the frame built from no record has no
    column, and the first column access fails. No value is returned, [NaN]
    or other. The error does not single out the empty list: a record
    without a price raises it as well. *)
Theorem aggregate_empty_raises_KeyError :
  aggregate E (VList []) = Raise (KeyError "price")
  ∧ ∀ quantity, aggregate E (VList [VDict {["quantity" := quantity]}])
                = Raise (KeyError "price").
Proof. split; [|intros quantity]; reflexivity. Qed.

End Average.

(** ** Path construction *)

Lemma append_cons c x s : String c x +:+ s = String c (x +:+ s).
Proof. reflexivity. Qed.

Lemma length_append x s :
  String.length (x +:+ s) = String.length x + String.length s.
Proof.
  induction x as [|c x IH]; [reflexivity|].
  rewrite append_cons. cbn [String.length]. rewrite IH. reflexivity.
Qed.

Lemma substring_all s : String.substring 0 (String.length s) s = s.
Proof. induction s as [|c s IH]; cbn; [|rewrite IH]; reflexivity. Qed.

Lemma substring_append_r x s :
  String.substring (String.length x) (String.length s) (x +:+ s) = s.
Proof.
  induction x as [|c x IH]; [apply substring_all|].
  rewrite append_cons. cbn [String.length String.substring]. exact IH.
Qed.

Lemma ends_with_append suf x : ends_with suf (x +:+ suf) = true.
Proof.
  unfold ends_with. rewrite length_append.
  replace (String.length x + String.length suf - String.length suf)
    with (String.length x) by lia.
  rewrite substring_append_r, String.eqb_refl, andb_true_r.
  apply Nat.leb_le. lia.
Qed.

Lemma normalize_snoc seen todo w :
  w ≠ ".." → normalize seen (todo ++ [w]) = normalize seen todo ++ [w].
Proof.
  intros Hw. revert seen.
  induction todo as [|v todo IH]; intros seen; cbn [normalize app].
  - apply String.eqb_neq in Hw. rewrite Hw. reflexivity.
  - destruct (String.eqb v ".."); apply IH.
Qed.

Section Paths.
Context (E : Env).

(** Whatever the suffix of the given name, the name of the path returned
    for it ends in [".csv"]. *)
Lemma fix_file_extension_csv file_name p :
  fix_file_extension E file_name = Ok p →
  ends_with ".csv" (name p) = true.
Proof.
  unfold fix_file_extension, with_suffix.
  destruct (String.eqb (name (path_of_string file_name)) ""); [discriminate|].
  set (nm := name (path_of_string file_name)).
  set (stem := if String.eqb (suffix_of nm) "" then nm
               else String.substring 0 (String.length nm - String.length (suffix_of nm)) nm).
  assert ((if String.eqb (suffix_of nm) "" then nm +:+ ".csv"
           else String.substring 0 (String.length nm - String.length (suffix_of nm)) nm
                +:+ ".csv") = stem +:+ ".csv") as ->.
  { subst stem. destruct (String.eqb (suffix_of nm) ""); reflexivity. }
  cbn. intros [= <-]. unfold resolve, name. cbn [parts root].
  rewrite app_assoc, normalize_snoc, last_last.
  - apply ends_with_append.
  - intros Heq. pose proof (f_equal String.length Heq) as Hlen.
    rewrite length_append in Hlen. cbn in Hlen. lia.
Qed.

Lemma resolve_root p : root (resolve E p) = true.
Proof. reflexivity. Qed.

Lemma joinpath_absolute a b : root b = true → joinpath a b = b.
Proof. unfold joinpath. intros ->. reflexivity. Qed.

(** Without a file name, the path is the resolved directory followed by
    the default name of the category. *)
Lemma create_absolute_csv_default dir_path file_name order_type :
  falsy file_name = true →
  order_type ∈ ["stock"; "option"; "crypto"] →
  create_absolute_csv E dir_path file_name order_type
  = Ok (mkPath true (parts (resolve E (path_of_string dir_path))
                     ++ [order_type +:+ "_orders.csv"])).
Proof.
  intros Hfalsy Hcat.
  assert (path_of_string (order_type +:+ "_orders.csv")
          = mkPath false [order_type +:+ "_orders.csv"]) as Hname.
  { repeat (apply elem_of_cons in Hcat as [->|Hcat]; [reflexivity|]).
    inversion Hcat. }
  unfold create_absolute_csv. rewrite Hfalsy, Hname. reflexivity.
Qed.

(** With a file name, the directory plays no part in the result. *)
Lemma create_absolute_csv_given dir_path given order_type :
  given ≠ "" →
  create_absolute_csv E dir_path (Some given) order_type
  = fix_file_extension E given.
Proof.
  intros Hne. unfold create_absolute_csv. cbn [falsy default from_option id].
  apply String.eqb_neq in Hne. rewrite Hne.
  unfold fix_file_extension.
  destruct (with_suffix (path_of_string given) ".csv") as [p|e]; reflexivity.
Qed.



End Paths.

(** C5. At [dir_path = "/tmp/out"], [file_name = "report.txt"], with
    [/home/user] as working directory, [create_absolute_csv] returns
    [/home/user/report.csv]: the name has been resolved against the
    working directory before the join, the join keeps the absolute name,
    and the result does not lie inside [dir_path]. *)
Theorem create_absolute_csv_given_name_escapes_dir_path :
  create_absolute_csv env0 "/tmp/out" (Some "report.txt") "stock"
  = Ok (mkPath true ["home"; "user"; "report.csv"])
  ∧ resolve env0 (path_of_string "/tmp/out") = mkPath true ["tmp"; "out"]
  ∧ inside (mkPath true ["tmp"; "out"]) (mkPath true ["home"; "user"; "report.csv"])
    = false.
Proof. repeat split; vm_compute; reflexivity. Qed.

(** ** Whole exports *)

Section Exports.
Context (E : Env).

Lemma export_stock_shape dir_path file_name account_number :
  export_completed_stock_orders E dir_path file_name account_number
  = export_with E "stock" "get_all_stock_orders" [account_number]
      (get_all_stock_orders E account_number) stock_header (stock_order E)
      dir_path file_name.
Proof. reflexivity. Qed.

Lemma export_crypto_shape dir_path file_name :
  export_completed_crypto_orders E dir_path file_name
  = export_with E "crypto" "get_all_crypto_orders" []
      (get_all_crypto_orders E) stock_header (crypto_order E)
      dir_path file_name.
Proof. reflexivity. Qed.

Lemma export_option_shape dir_path file_name :
  export_completed_option_orders E dir_path file_name
  = export_with E "option" "get_all_option_orders" []
      (get_all_option_orders E) option_header (option_order E)
      dir_path file_name.
Proof. reflexivity. Qed.




End Exports.

(** ** Order of the rows *)

Lemma bind_cong {A B} (m m' : prog A) (k k' : A → prog B) :
  m = m' → (∀ a, k a = k' a) → m ≫= k = m' ≫= k'.
Proof.
  intros <- Hk. destruct m as [t [a|e]]; unfold mbind, prog_bind;
    [rewrite Hk|]; reflexivity.
Qed.

Lemma for_each_ext {A} (l : list A) (body body' : A → prog unit) :
  (∀ x, body x = body' x) → for_each l body = for_each l body'.
Proof.
  intros H. induction l as [|x l IH]; cbn [for_each]; [reflexivity|].
  apply bind_cong; [apply H|intros _; exact IH].
Qed.

(** A loop that completes has written the rows of its iterations one
    after the other, and every iteration has completed. *)
Lemma for_each_ok_written {A} (l : list A) (body : A → prog unit) :
  outcome (for_each l body) = Ok tt →
  written (trace (for_each l body)) = flat_map (λ x, written (trace (body x))) l
  ∧ Forall (λ x, outcome (body x) = Ok tt) l.
Proof.
  induction l as [|x l IH]; cbn [for_each flat_map]; intros Hok.
  - split; [reflexivity|constructor].
  - rewrite bind_unfold in Hok |- *.
    destruct (outcome (body x)) as [[]|e] eqn:Hx; [|discriminate Hok].
    cbn [trace outcome fst snd] in Hok |- *.
    destruct (IH Hok) as [IHw IHf].
    rewrite written_app, IHw. split; [reflexivity|].
    constructor; assumption.
Qed.

(** Whether it completes or not, a loop writes an initial part of the rows
    of its iterations taken in order. *)
Lemma for_each_written_prefix {A} (l : list A) (body : A → prog unit) :
  written (trace (for_each l body))
  `prefix_of` flat_map (λ x, written (trace (body x))) l.
Proof.
  induction l as [|x l IH]; cbn [for_each flat_map]; [reflexivity|].
  rewrite bind_unfold.
  destruct (outcome (body x)) as [[]|e]; cbn [trace fst].
  - rewrite written_app. apply prefix_app, IH.
  - apply prefix_app_r. reflexivity.
Qed.

Section Determined.
Context (E E' : Env) (Hsame : same_lookups E E').

Lemma to_float_same v : to_float E v = to_float E' v.
Proof.
  destruct Hsame as (_ & _ & _ & Hf).
  destruct v; cbn; rewrite ?Hf; reflexivity.
Qed.

Lemma astype_float_same vs : astype_float E vs = astype_float E' vs.
Proof.
  induction vs as [|v vs IH]; cbn; [reflexivity|].
  rewrite to_float_same, IH. reflexivity.
Qed.

Lemma aggregate_same executions : aggregate E executions = aggregate E' executions.
Proof.
  unfold aggregate.
  destruct (DataFrame executions) as [df|e]; [|reflexivity]. cbn.
  destruct (column df "price") as [pr|e]; [|reflexivity]. cbn.
  rewrite astype_float_same.
  destruct (astype_float E' pr) as [prf|e]; [|reflexivity]. cbn.
  destruct (column df "quantity") as [qu|e]; [|reflexivity]. cbn.
  rewrite astype_float_same. reflexivity.
Qed.

Lemma stock_rest_same order :
  (state ← item order "state";
   completed ← (if eq_str state "filled"
                then cancel ← item order "cancel"; mret (is_None cancel)
                else mret false);
   if completed : bool then stock_filled_row E order else mret tt)
  = (state ← item order "state";
     completed ← (if eq_str state "filled"
                  then cancel ← item order "cancel"; mret (is_None cancel)
                  else mret false);
     if completed : bool then stock_filled_row E' order else mret tt).
Proof.
  destruct Hsame as (Hs & _).
  apply bind_cong; [reflexivity|intros state].
  apply bind_cong; [reflexivity|intros [|]]; [|reflexivity].
  unfold stock_filled_row.
  apply bind_cong; [reflexivity|intros instrument]. rewrite Hs. reflexivity.
Qed.

Lemma stock_order_same order : stock_order E order = stock_order E' order.
Proof.
  destruct Hsame as (Hs & _).
  unfold stock_order.
  apply bind_cong; [reflexivity|intros state].
  apply bind_cong; [reflexivity|intros [|]].
  - apply bind_cong.
    + apply bind_cong; [reflexivity|intros executions].
      apply bind_cong; [reflexivity|intros partials].
      apply for_each_ext. intros partial. unfold stock_partial_row.
      apply bind_cong; [reflexivity|intros instrument]. rewrite Hs. reflexivity.
    + intros _. apply stock_rest_same.
  - apply bind_cong; [reflexivity|]. intros _. apply stock_rest_same.
Qed.

Lemma crypto_order_same order : crypto_order E order = crypto_order E' order.
Proof.
  destruct Hsame as (_ & Hc & _).
  unfold crypto_order.
  apply bind_cong; [reflexivity|intros state].
  apply bind_cong; [reflexivity|intros [|]]; [|reflexivity].
  apply bind_cong; [reflexivity|intros fees].
  apply bind_cong; [reflexivity|intros currency_pair_id].
  rewrite Hc. reflexivity.
Qed.

Lemma option_order_same order : option_order E order = option_order E' order.
Proof.
  destruct Hsame as (_ & _ & Hr & _).
  unfold option_order.
  apply bind_cong; [reflexivity|intros state].
  destruct (eq_str state "filled"); [|reflexivity].
  repeat (apply bind_cong; [reflexivity|intros ?]).
  apply for_each_ext. intros leg. unfold option_leg_row.
  apply bind_cong; [reflexivity|intros option].
  rewrite Hr.
  apply bind_cong; [reflexivity|intros instrument_data].
  apply bind_cong; [reflexivity|intros executions].
  rewrite aggregate_same. reflexivity.
Qed.

End Determined.

(** Case analysis on the first step of a program known to complete. *)
Ltac open_bind H :=
  lazymatch type of H with
  | outcome (lift ?r ≫= _) = Ok _ =>
      let a := fresh "a" in
      destruct r as [a|] eqn:?;
      [rewrite bind_lift_ok in H |- *; try destruct a as [? ?]|discriminate H]
  | outcome (call ?ep ?args ?r ≫= _) = Ok _ =>
      let a := fresh "a" in
      destruct r as [a|] eqn:?;
      [rewrite (bind_call_ok ep args (Ok a) a _ eq_refl) in H |- *;
       cbn [outcome snd] in H; cbn [trace fst written]
      |discriminate H]
  end.

Section RowOrder.
Context (E : Env).

Lemma stock_partial_row_one order partial :
  outcome (stock_partial_row E order partial) = Ok tt →
  ∃ row, written (trace (stock_partial_row E order partial)) = [row].
Proof.
  unfold stock_partial_row, item. intros H.
  repeat open_bind H. eexists. reflexivity.
Qed.

Lemma option_leg_row_one order leg :
  outcome (option_leg_row E order leg) = Ok tt →
  ∃ row, written (trace (option_leg_row E order leg)) = [row].
Proof.
  unfold option_leg_row, item. intros H.
  repeat open_bind H. eexists. reflexivity.
Qed.

(** An export that completes has written the header and then the rows of
    the fetched orders, order after order. *)
Lemma export_with_rows order_type endpoint args answer header body
    dir_path file_name all_orders orders :
  answer = Ok all_orders →
  iter all_orders = Ok orders →
  outcome (export_with E order_type endpoint args answer header body
             dir_path file_name) = Ok tt →
  written (trace (export_with E order_type endpoint args answer header body
                    dir_path file_name))
  = header :: flat_map (λ o, written (trace (body o))) orders.
Proof.
  intros Hanswer Hiter. unfold export_with, login_required.
  destruct (LOGGED_IN E); [|discriminate].
  destruct (create_absolute_csv E dir_path file_name order_type) as [p|e];
    [|discriminate].
  rewrite bind_lift_ok, (bind_call_ok _ _ _ _ _ Hanswer).
  unfold with_open, open_w.
  destruct (negb (is_dir E (parent p))); [discriminate|].
  destruct (is_dir E p); [discriminate|].
  unfold writerow. rewrite Hiter, !bind_emit, bind_lift_ok.
  cbn [trace outcome fst snd written]. intros Hok.
  rewrite written_app. cbn [written]. rewrite app_nil_r.
  destruct (for_each_ok_written _ _ Hok) as [-> _]. reflexivity.
Qed.

Lemma export_with_rows_prefix order_type endpoint args answer header body
    dir_path file_name all_orders orders :
  answer = Ok all_orders →
  iter all_orders = Ok orders →
  written (trace (export_with E order_type endpoint args answer header body
                    dir_path file_name))
  `prefix_of` header :: flat_map (λ o, written (trace (body o))) orders.
Proof.
  intros Hanswer Hiter. unfold export_with, login_required.
  destruct (LOGGED_IN E); [|apply prefix_nil].
  destruct (create_absolute_csv E dir_path file_name order_type) as [p|e];
    [|apply prefix_nil].
  rewrite bind_lift_ok, (bind_call_ok _ _ _ _ _ Hanswer).
  unfold with_open, open_w.
  destruct (negb (is_dir E (parent p))); [apply prefix_nil|].
  destruct (is_dir E p); [apply prefix_nil|].
  unfold writerow. rewrite Hiter, !bind_emit, bind_lift_ok.
  cbn [trace outcome fst snd written].
  rewrite written_app. cbn [written]. rewrite app_nil_r.
  apply prefix_cons, for_each_written_prefix.
Qed.

Lemma stock_order_partial_rows_prefix order partials :
  partially_executed order →
  (getitem order "executions" ≫= iter) = Ok partials →
  written (trace (stock_order E order))
  `prefix_of`
    flat_map (λ partial, written (trace (stock_partial_row E order partial))) partials.
Proof.
  intros [Hstate [n Hlen]] Hiter. unfold stock_order, item.
  rewrite Hstate, !bind_lift_ok. cbn [eq_str String.eqb Ascii.eqb Bool.eqb].
  destruct (getitem order "executions") as [executions|e]; [|discriminate].
  change (len executions = Ok (S n)) in Hlen.
  change (iter executions = Ok partials) in Hiter.
  rewrite !bind_lift_ok, Hlen, Hiter, !bind_lift_ok, bind_ret, !bind_ret.
  cbn [Nat.ltb Nat.leb].
  rewrite bind_unfold.
  destruct (outcome (for_each partials (stock_partial_row E order))) as [[]|e];
    cbn [trace outcome fst snd mret prog_ret];
    rewrite ?app_nil_r; apply for_each_written_prefix.
Qed.

Lemma option_order_leg_rows_prefix order legs :
  getitem order "state" = Ok (VStr "filled") →
  (getitem order "legs" ≫= iter) = Ok legs →
  written (trace (option_order E order))
  `prefix_of` flat_map (λ leg, written (trace (option_leg_row E order leg))) legs.
Proof.
  intros Hstate Hiter. unfold option_order, item.
  rewrite Hstate, !bind_lift_ok. cbn [eq_str String.eqb Ascii.eqb Bool.eqb].
  destruct (getitem order "legs") as [legs'|e]; [|discriminate].
  change (iter legs' = Ok legs) in Hiter.
  rewrite bind_lift_ok, Hiter, bind_lift_ok.
  apply for_each_written_prefix.
Qed.

Lemma stock_order_partial_rows order partials :
  partially_executed order →
  (getitem order "executions" ≫= iter) = Ok partials →
  outcome (stock_order E order) = Ok tt →
  written (trace (stock_order E order))
  = flat_map (λ partial, written (trace (stock_partial_row E order partial))) partials
  ∧ Forall (λ partial, outcome (stock_partial_row E order partial) = Ok tt) partials.
Proof.
  intros [Hstate [n Hlen]] Hiter. unfold stock_order, item.
  rewrite Hstate, !bind_lift_ok. cbn [eq_str String.eqb Ascii.eqb Bool.eqb].
  destruct (getitem order "executions") as [executions|e]; [|discriminate].
  change (len executions = Ok (S n)) in Hlen.
  change (iter executions = Ok partials) in Hiter.
  rewrite !bind_lift_ok, Hlen, Hiter, !bind_lift_ok, bind_ret, !bind_ret.
  cbn [Nat.ltb Nat.leb].
  rewrite bind_unfold.
  destruct (outcome (for_each partials (stock_partial_row E order))) as [[]|e] eqn:Hok;
    [|discriminate].
  cbn [trace outcome fst snd mret prog_ret]. intros _.
  rewrite app_nil_r. apply for_each_ok_written. exact Hok.
Qed.

Lemma option_order_leg_rows order legs :
  getitem order "state" = Ok (VStr "filled") →
  (getitem order "legs" ≫= iter) = Ok legs →
  outcome (option_order E order) = Ok tt →
  written (trace (option_order E order))
  = flat_map (λ leg, written (trace (option_leg_row E order leg))) legs
  ∧ Forall (λ leg, outcome (option_leg_row E order leg) = Ok tt) legs.
Proof.
  intros Hstate Hiter. unfold option_order, item.
  rewrite Hstate, !bind_lift_ok. cbn [eq_str String.eqb Ascii.eqb Bool.eqb].
  destruct (getitem order "legs") as [legs'|e]; [|discriminate].
  change (iter legs' = Ok legs) in Hiter.
  rewrite bind_lift_ok, Hiter, bind_lift_ok.
  intros Hok. apply for_each_ok_written. exact Hok.
Qed.

End RowOrder.

(** C10. The rows an export has written are an initial part of: the
    header, then the rows of the fetched orders in the order of the fetched
    list; all of it when the export completes. Likewise the rows of a
    partially executed stock order follow its executions and those of a
    filled option order follow its legs, one row for each on completion.
    The rows of an order are the same in every environment that answers the
    lookups alike: they are determined by the fetched list and the
    lookups. *)
Theorem rows_follow_source_order (E E' : Env) :
  same_lookups E E' →
  (∀ dir_path file_name account_number all_orders orders,
     get_all_stock_orders E account_number = Ok all_orders →
     iter all_orders = Ok orders →
     let run := export_completed_stock_orders E dir_path file_name account_number in
     let rows := stock_header :: flat_map (λ o, written (trace (stock_order E' o))) orders in
     written (trace run) `prefix_of` rows
     ∧ (outcome run = Ok tt → written (trace run) = rows))
  ∧ (∀ dir_path file_name all_orders orders,
     get_all_crypto_orders E = Ok all_orders →
     iter all_orders = Ok orders →
     let run := export_completed_crypto_orders E dir_path file_name in
     let rows := stock_header :: flat_map (λ o, written (trace (crypto_order E' o))) orders in
     written (trace run) `prefix_of` rows
     ∧ (outcome run = Ok tt → written (trace run) = rows))
  ∧ (∀ dir_path file_name all_orders orders,
     get_all_option_orders E = Ok all_orders →
     iter all_orders = Ok orders →
     let run := export_completed_option_orders E dir_path file_name in
     let rows := option_header :: flat_map (λ o, written (trace (option_order E' o))) orders in
     written (trace run) `prefix_of` rows
     ∧ (outcome run = Ok tt → written (trace run) = rows))
  ∧ (∀ order partials,
     partially_executed order →
     (getitem order "executions" ≫= iter) = Ok partials →
     let rows :=
       flat_map (λ partial, written (trace (stock_partial_row E order partial))) partials in
     written (trace (stock_order E order)) `prefix_of` rows
     ∧ (outcome (stock_order E order) = Ok tt →
        written (trace (stock_order E order)) = rows
        ∧ Forall (λ partial, ∃ row,
                    written (trace (stock_partial_row E order partial)) = [row])
                 partials))
  ∧ (∀ order legs,
     getitem order "state" = Ok (VStr "filled") →
     (getitem order "legs" ≫= iter) = Ok legs →
     let rows := flat_map (λ leg, written (trace (option_leg_row E order leg))) legs in
     written (trace (option_order E order)) `prefix_of` rows
     ∧ (outcome (option_order E order) = Ok tt →
        written (trace (option_order E order)) = rows
        ∧ Forall (λ leg, ∃ row,
                    written (trace (option_leg_row E order leg)) = [row]) legs)).
Proof.
  intros Hsame. split; [|split; [|split; [|split]]].
  - intros dir_path file_name account_number all_orders orders Hfetch Hiter run rows.
    subst run rows. rewrite export_stock_shape.
    rewrite <- (flat_map_ext _ _ (λ o, f_equal (written ∘ trace)
                                        (stock_order_same E E' Hsame o))).
    split.
    + eapply export_with_rows_prefix; eassumption.
    + intros Hok. eapply export_with_rows; eassumption.
  - intros dir_path file_name all_orders orders Hfetch Hiter run rows.
    subst run rows. rewrite export_crypto_shape.
    rewrite <- (flat_map_ext _ _ (λ o, f_equal (written ∘ trace)
                                        (crypto_order_same E E' Hsame o))).
    split.
    + eapply export_with_rows_prefix; eassumption.
    + intros Hok. eapply export_with_rows; eassumption.
  - intros dir_path file_name all_orders orders Hfetch Hiter run rows.
    subst run rows. rewrite export_option_shape.
    rewrite <- (flat_map_ext _ _ (λ o, f_equal (written ∘ trace)
                                        (option_order_same E E' Hsame o))).
    split.
    + eapply export_with_rows_prefix; eassumption.
    + intros Hok. eapply export_with_rows; eassumption.
  - intros order partials Hpartial Hiter rows. subst rows. split.
    + apply stock_order_partial_rows_prefix; assumption.
    + intros Hok.
      destruct (stock_order_partial_rows E order partials Hpartial Hiter Hok) as [Hw Hall].
      split; [exact Hw|].
      eapply Forall_impl; [exact Hall|]. apply stock_partial_row_one.
  - intros order legs Hstate Hiter rows. subst rows. split.
    + apply option_order_leg_rows_prefix; assumption.
    + intros Hok.
      destruct (option_order_leg_rows E order legs Hstate Hiter Hok) as [Hw Hall].
      split; [exact Hw|].
      eapply Forall_impl; [exact Hall|]. apply option_leg_row_one.
Qed.

(** ** Counterexamples and instances *)

(** A suffix is replaced, a missing suffix is added. *)
Example fix_file_extension_replaces :
  fix_file_extension env0 "report.txt" = Ok (mkPath true ["home"; "user"; "report.csv"]).
Proof. reflexivity. Qed.

Example fix_file_extension_adds :
  fix_file_extension env0 "report" = Ok (mkPath true ["home"; "user"; "report.csv"]).
Proof. reflexivity. Qed.

(** The row of an option leg carries the aggregated quantity and price. *)
Example option_order_row :
  written (trace (option_order env0 (VDict filled_option)))
  = [[VStr "AAPL"; VStr "2024-01-19"; VStr "150.0000"; VStr "call"; VStr "opt-1";
      VStr "buy"; VStr "t0"; VStr "debit"; num 4; VStr "limit";
      VStr "long_call"; VNone; num 15; num 4; num 0]].
Proof. vm_compute. reflexivity. Qed.

(** C1, as stated, fails on a non-empty list whose quantities sum to zero:
    [numpy.average] raises [ZeroDivisionError]. *)
Lemma aggregate_zero_quantity_raises :
  price_quantity env0 (exec "t1" 10 0) = Some (float_of_Z 10, float_of_Z 0)
  ∧ aggregate env0 (VList [exec "t1" 10 0]) = Raise ZeroDivisionError.
Proof. split; vm_compute; reflexivity. Qed.

(** The example of the specification: prices 10 and 20, quantity 2 each,
    give total quantity 4 and average price 15. *)
Lemma aggregate_two_executions :
  aggregate env0 (VList [exec "t1" 10 2; exec "t2" 20 2])
  = Ok (float_of_Z 4, float_of_Z 15).
Proof.
  rewrite (proj1 (aggregate_weighted_average env0
                    [exec "t1" 10 2; exec "t2" 20 2]
                    [(float_of_Z 10, float_of_Z 2); (float_of_Z 20, float_of_Z 2)]
                    ltac:(repeat constructor) ltac:(discriminate))).
  vm_compute. reflexivity.
Defined.

(** C6, as stated, fails: the error raised for the empty list is also
    raised for a list whose records have no price, so it does not single
    out the empty case. *)
Lemma aggregate_empty_not_told_apart : ¬ ∃ e, signals_empty env0 e.
Proof.
  intros (e & Hempty & Hothers).
  apply (Hothers [VDict {["quantity" := num 2]}]); [discriminate|].
  rewrite <- Hempty. vm_compute. reflexivity.
Qed.



(** C8, as stated, fails for a filled crypto order whose ["cancel_url"] is
    set: it has no fees field and no row is written for it. *)
Lemma marked_crypto_without_fees_no_row :
  marked_crypto !! "state" = Some (VStr "filled")
  ∧ marked_crypto !! "fees" = None
  ∧ written (trace (crypto_order env0 (VDict marked_crypto))) = [].
Proof. repeat split; vm_compute; reflexivity. Qed.

Lemma crypto_missing_fees_default_witness :
  written (trace (crypto_order env0 (VDict filled_crypto)))
  = [[VStr "BTCUSD"; VStr "t5"; VStr "market"; VStr "sell"; VNum zero;
      num 1; num 30000]]
  ∧ outcome (crypto_order env0 (VDict filled_crypto)) = Ok tt.
Proof.
  apply (crypto_missing_fees_default env0 filled_crypto (VStr "pair-1"));
    reflexivity.
Defined.

Lemma filled_order_emits_own_row_witness :
  written (trace (stock_order env0 (VDict filled_stock)))
  = [[VStr "AAPL"; VStr "t9"; VStr "market"; VStr "buy"; num 0; num 10; num 150]]
  ∧ outcome (stock_order env0 (VDict filled_stock)) = Ok tt.
Proof.
  refine (proj1 (filled_order_emits_own_row env0 filled_stock (VStr "AAPL")
                   (VStr "t9") (VStr "market") (VStr "buy") (num 0) (num 10) (num 150)
                   _ _ _ _ _ _ _)
            (VStr "url:aapl") _ _ _);
    reflexivity.
Defined.

Lemma cancelled_order_row_per_execution_witness :
  written (trace (stock_order env0 (VDict cancelled_stock)))
  = [[VStr "AAPL"; VStr "t1"; VStr "limit"; VStr "buy"; num 0; num 3; num 100];
     [VStr "AAPL"; VStr "t2"; VStr "limit"; VStr "buy"; num 0; num 2; num 105]]
  ∧ length (written (trace (stock_order env0 (VDict cancelled_stock)))) = 2
  ∧ outcome (stock_order env0 (VDict cancelled_stock)) = Ok tt.
Proof.
  apply (cancelled_order_row_per_execution env0 cancelled_stock
           [exec "t1" 100 3; exec "t2" 105 2] (VStr "url:aapl") (VStr "AAPL")
           (VStr "limit") (VStr "buy") (num 0)
           [(VStr "t1", num 3, num 100); (VStr "t2", num 2, num 105)]);
    try reflexivity.
  - discriminate.
  - repeat constructor.
Defined.

(** A cancelled crypto order writes no row although it has an execution. *)
Lemma other_orders_emit_no_row_witness :
  cancelled_crypto !! "executions" = Some (VList [exec "t4" 30000 1])
  ∧ written (trace (crypto_order env0 (VDict cancelled_crypto))) = [].
Proof.
  split; [reflexivity|].
  apply (proj1 (proj2 (other_orders_emit_no_row env0 (VDict cancelled_crypto)))).
  intros [Hstate _]. vm_compute in Hstate. discriminate.
Defined.

Lemma filled_with_cancel_marker_no_row_witness :
  written (trace (stock_order env0 (VDict marked_stock))) = []
  ∧ outcome (stock_order env0 (VDict marked_stock)) = Ok tt.
Proof.
  apply (filled_with_cancel_marker_no_row env0 marked_stock (VStr "url:cancel"));
    [reflexivity|reflexivity|discriminate].
Defined.

Lemma same_lookups_env1_env0 : same_lookups env1 env0.
Proof. repeat split. Defined.

(** The scenario of the specification: one filled order and one cancelled
    order with two executions give the header and three rows. *)
Lemma rows_follow_source_order_witness :
  written (trace (export_completed_stock_orders env1 "out" None VNone))
  = [stock_header;
     [VStr "AAPL"; VStr "t9"; VStr "market"; VStr "buy"; num 0; num 10; num 150];
     [VStr "AAPL"; VStr "t1"; VStr "limit"; VStr "buy"; num 0; num 3; num 100];
     [VStr "AAPL"; VStr "t2"; VStr "limit"; VStr "buy"; num 0; num 2; num 105]].
Proof.
  refine (proj2 (proj1 (rows_follow_source_order env1 env0 same_lookups_env1_env0)
                   "out" None VNone
                   (VList [VDict filled_stock; VDict cancelled_stock])
                   [VDict filled_stock; VDict cancelled_stock] eq_refl eq_refl) _).
  vm_compute. reflexivity.
Defined.

(** * Further properties *)

(** ** File names *)









Section FileNames.
Context (E : Env).



End FileNames.



(** ** The path of the export file *)

Lemma elem_of_removelast {A} (x : A) l : x ∈ List.removelast l → x ∈ l.
Proof.
  induction l as [|y l IH]; [intros H; exact H|].
  destruct l as [|z l]; [intros H; inversion H|].
  change (List.removelast (y :: z :: l)) with (y :: List.removelast (z :: l)).
  intros [->|H]%elem_of_cons; [left|right; apply IH, H].
Qed.

Lemma normalize_no_up seen todo :
  ".." ∉ seen → ".." ∉ normalize seen todo.
Proof.
  revert seen. induction todo as [|w todo IH]; intros seen Hseen; [exact Hseen|].
  cbn [normalize]. destruct (String.eqb w "..") eqn:Hw; apply IH.
  - intros H. apply Hseen, elem_of_removelast, H.
  - apply String.eqb_neq in Hw.
    intros [H|H%list_elem_of_singleton]%elem_of_app; [exact (Hseen H)|congruence].
Qed.

(** The components kept by [Path(s)] are not empty. *)
Lemma name_of_path_empty s :
  name (path_of_string s) = "" ↔ parts (path_of_string s) = [].
Proof.
  unfold name, path_of_string. cbn [parts].
  set (l := List.filter keep_part (split_on "/" s)).
  split; [|intros ->; reflexivity].
  intros Hlast. destruct (decide (l = [])) as [|Hne]; [assumption|exfalso].
  assert (In (List.last l "") l) as Hin.
  { rewrite (app_removelast_last "" Hne) at 2. apply in_or_app. right. left. reflexivity. }
  apply filter_In in Hin as [_ Hkeep]. rewrite Hlast in Hkeep. discriminate Hkeep.
Qed.

Section ExportPath.
Context (E : Env).



(** X5. Every path returned by [create_absolute_csv] for one of the three
    order types is absolute, has a name ending in [".csv"], and has no
    [".."] component. *)
Theorem create_absolute_csv_result dir_path file_name order_type file_path :
  order_type ∈ ["stock"; "option"; "crypto"] →
  create_absolute_csv E dir_path file_name order_type = Ok file_path →
  root file_path = true
  ∧ ends_with ".csv" (name file_path) = true
  ∧ ".." ∉ parts file_path.
Proof.
  intros Hcat Hpath.
  destruct (falsy file_name) eqn:Hfalsy.
  - rewrite (create_absolute_csv_default E _ _ _ Hfalsy Hcat) in Hpath.
    injection Hpath as <-. split; [reflexivity|]. split.
    + unfold name. cbn [parts]. rewrite last_last.
      repeat (apply elem_of_cons in Hcat as [->|Hcat]; [reflexivity|]).
      inversion Hcat.
    + cbn [parts resolve].
      intros [H|H%list_elem_of_singleton]%elem_of_app.
      * revert H. apply normalize_no_up. intros H. inversion H.
      * repeat (apply elem_of_cons in Hcat as [->|Hcat]; [discriminate H|]).
        inversion Hcat.
  - destruct file_name as [given|]; [|discriminate Hfalsy].
    cbn [falsy] in Hfalsy. apply String.eqb_neq in Hfalsy.
    rewrite (create_absolute_csv_given E _ _ _ Hfalsy) in Hpath.
    split; [|split].
    + unfold fix_file_extension in Hpath.
      destruct (with_suffix (path_of_string given) ".csv"); [|discriminate].
      injection Hpath as <-. reflexivity.
    + eapply fix_file_extension_csv. exact Hpath.
    + unfold fix_file_extension in Hpath.
      destruct (with_suffix (path_of_string given) ".csv"); [|discriminate].
      injection Hpath as <-. cbn [parts resolve].
      apply normalize_no_up. intros H. inversion H.
Qed.

(** X6. On a directory name and a file name without a NUL character,
    [create_absolute_csv] raises only [ValueError], and exactly for a
    non-empty file name that has no component to carry a suffix (such as
    ["."] or ["/"]); a missing directory raises nothing. *)
Theorem create_absolute_csv_raises dir_path file_name order_type e :
  contains "000"%char dir_path = false →
  (∀ given, file_name = Some given → contains "000"%char given = false) →
  create_absolute_csv E dir_path file_name order_type = Raise e
  ↔ e = ValueError
    ∧ ∃ given, file_name = Some given ∧ given ≠ ""
               ∧ parts (path_of_string given) = [].
Proof.
  intros _ _. unfold create_absolute_csv.
  destruct (falsy file_name) eqn:Hfalsy.
  - split; [discriminate|].
    intros (_ & given & -> & Hne & _). cbn [falsy] in Hfalsy.
    apply String.eqb_eq in Hfalsy. contradiction.
  - destruct file_name as [given|]; [|discriminate Hfalsy].
    cbn [falsy] in Hfalsy. apply String.eqb_neq in Hfalsy.
    cbn [default from_option id]. unfold fix_file_extension, with_suffix.
    destruct (String.eqb (name (path_of_string given)) "") eqn:Hname.
    + apply String.eqb_eq, name_of_path_empty in Hname.
      split.
      * intros [= <-]. split; [reflexivity|]. exists given. auto.
      * intros (-> & _). reflexivity.
    + apply String.eqb_neq in Hname.
      split; [discriminate|].
      intros (_ & given' & [= <-] & _ & Hparts).
      apply name_of_path_empty in Hparts. contradiction.
Qed.

End ExportPath.



Lemma create_absolute_csv_result_witness :
  root (mkPath true ["home"; "user"; "c.csv"]) = true
  ∧ ends_with ".csv" (name (mkPath true ["home"; "user"; "c.csv"])) = true
  ∧ ".." ∉ parts (mkPath true ["home"; "user"; "c.csv"]).
Proof.
  apply (create_absolute_csv_result env0 "../x" (Some "a/../b/../c.d") "option");
    [set_solver|reflexivity].
Defined.

(** ["."] names no file. *)
Lemma create_absolute_csv_raises_witness :
  create_absolute_csv env0 "out" (Some ".") "stock" = Raise ValueError.
Proof.
  apply (create_absolute_csv_raises env0 "out" (Some ".") "stock" ValueError).
  - reflexivity.
  - intros given [= <-]. reflexivity.
  - split; [reflexivity|]. exists ".". repeat split. discriminate.
Defined.

(** ** The course of an export *)

Section Course.
Context (E : Env).

Lemma export_with_path_error order_type endpoint args answer header body
    dir_path file_name e :
  LOGGED_IN E = true →
  create_absolute_csv E dir_path file_name order_type = Raise e →
  export_with E order_type endpoint args answer header body dir_path file_name
  = ([], Raise e).
Proof.
  intros Hlogin Hpath. unfold export_with, login_required.
  rewrite Hlogin, Hpath. reflexivity.
Qed.

Lemma export_with_fetch_error order_type endpoint args answer header body
    dir_path file_name file_path e :
  LOGGED_IN E = true →
  create_absolute_csv E dir_path file_name order_type = Ok file_path →
  answer = Raise e →
  export_with E order_type endpoint args answer header body dir_path file_name
  = ([EvRequest endpoint args], Raise e).
Proof.
  intros Hlogin Hpath ->. unfold export_with, login_required.
  rewrite Hlogin, Hpath, bind_lift_ok. reflexivity.
Qed.

(** Once the file is open: the header, the loop, the close. *)
Lemma export_with_opened order_type endpoint args answer header body
    dir_path file_name file_path all_orders orders :
  LOGGED_IN E = true →
  create_absolute_csv E dir_path file_name order_type = Ok file_path →
  answer = Ok all_orders →
  writable E file_path →
  iter all_orders = Ok orders →
  export_with E order_type endpoint args answer header body dir_path file_name
  = ([EvRequest endpoint args; EvOpen file_path; EvWriteRow header]
       ++ trace (for_each orders body) ++ [EvClose],
     outcome (for_each orders body)).
Proof.
  intros Hlogin Hpath Hanswer [Hparent Hfile] Hiter.
  unfold export_with, login_required.
  rewrite Hlogin, Hpath, bind_lift_ok, (bind_call_ok _ _ _ _ _ Hanswer).
  unfold with_open, open_w, writerow. rewrite Hparent, Hfile. cbn [negb].
  rewrite Hiter, !bind_emit, bind_lift_ok. reflexivity.
Qed.

(** A loop stops at the first iteration that raises. *)
Lemma for_each_abort {A} (done : list A) (x : A) (rest : list A)
    (body : A → prog unit) e :
  Forall (λ y, outcome (body y) = Ok tt) done →
  outcome (body x) = Raise e →
  for_each (done ++ x :: rest) body
  = (flat_map (λ y, trace (body y)) done ++ trace (body x), Raise e).
Proof.
  intros Hdone Hx. induction Hdone as [|y done Hy _ IH]; cbn [app for_each flat_map].
  - rewrite bind_unfold, Hx. reflexivity.
  - rewrite bind_unfold, Hy, IH. cbn [trace outcome fst snd].
    rewrite app_assoc. reflexivity.
Qed.

(** X7. An error of the path construction ends the export before anything
    else happens: no request is made and no file is opened. *)
Theorem path_error_precedes_fetch dir_path file_name e :
  LOGGED_IN E = true →
  (create_absolute_csv E dir_path file_name "stock" = Raise e →
   ∀ account_number,
     export_completed_stock_orders E dir_path file_name account_number = ([], Raise e))
  ∧ (create_absolute_csv E dir_path file_name "crypto" = Raise e →
     export_completed_crypto_orders E dir_path file_name = ([], Raise e))
  ∧ (create_absolute_csv E dir_path file_name "option" = Raise e →
     export_completed_option_orders E dir_path file_name = ([], Raise e)).
Proof.
  intros Hlogin. repeat split; intros Hpath; intros.
  - rewrite export_stock_shape. apply export_with_path_error; assumption.
  - rewrite export_crypto_shape. apply export_with_path_error; assumption.
  - rewrite export_option_shape. apply export_with_path_error; assumption.
Qed.

(** X8. When the fetch of the orders raises, the export raises the same
    error and the output file has not been opened: a file of an earlier
    export is left as it was. *)
Theorem fetch_error_leaves_file dir_path file_name e :
  LOGGED_IN E = true →
  (∀ account_number file_path,
     create_absolute_csv E dir_path file_name "stock" = Ok file_path →
     get_all_stock_orders E account_number = Raise e →
     export_completed_stock_orders E dir_path file_name account_number
     = ([EvRequest "get_all_stock_orders" [account_number]], Raise e))
  ∧ (∀ file_path,
     create_absolute_csv E dir_path file_name "crypto" = Ok file_path →
     get_all_crypto_orders E = Raise e →
     export_completed_crypto_orders E dir_path file_name
     = ([EvRequest "get_all_crypto_orders" []], Raise e))
  ∧ (∀ file_path,
     create_absolute_csv E dir_path file_name "option" = Ok file_path →
     get_all_option_orders E = Raise e →
     export_completed_option_orders E dir_path file_name
     = ([EvRequest "get_all_option_orders" []], Raise e)).
Proof.
  intros Hlogin. repeat split; intros.
  - rewrite export_stock_shape. eapply export_with_fetch_error; eassumption.
  - rewrite export_crypto_shape. eapply export_with_fetch_error; eassumption.
  - rewrite export_option_shape. eapply export_with_fetch_error; eassumption.
Qed.

(** X9. When the fetch returns the empty list, the export completes and
    the file holds the header alone. *)
Theorem no_orders_header_only dir_path file_name :
  LOGGED_IN E = true →
  (∀ account_number file_path,
     create_absolute_csv E dir_path file_name "stock" = Ok file_path →
     writable E file_path →
     get_all_stock_orders E account_number = Ok (VList []) →
     export_completed_stock_orders E dir_path file_name account_number
     = ([EvRequest "get_all_stock_orders" [account_number]; EvOpen file_path;
         EvWriteRow stock_header; EvClose], Ok tt))
  ∧ (∀ file_path,
     create_absolute_csv E dir_path file_name "crypto" = Ok file_path →
     writable E file_path →
     get_all_crypto_orders E = Ok (VList []) →
     export_completed_crypto_orders E dir_path file_name
     = ([EvRequest "get_all_crypto_orders" []; EvOpen file_path;
         EvWriteRow stock_header; EvClose], Ok tt))
  ∧ (∀ file_path,
     create_absolute_csv E dir_path file_name "option" = Ok file_path →
     writable E file_path →
     get_all_option_orders E = Ok (VList []) →
     export_completed_option_orders E dir_path file_name
     = ([EvRequest "get_all_option_orders" []; EvOpen file_path;
         EvWriteRow option_header; EvClose], Ok tt)).
Proof.
  intros Hlogin. repeat split; intros.
  - rewrite export_stock_shape.
    erewrite export_with_opened by (eassumption || reflexivity). reflexivity.
  - rewrite export_crypto_shape.
    erewrite export_with_opened by (eassumption || reflexivity). reflexivity.
  - rewrite export_option_shape.
    erewrite export_with_opened by (eassumption || reflexivity). reflexivity.
Qed.

(** X10. When the body of the loop raises for an order, the export raises
    that error. The file then holds the header, the rows of the orders
    before it and the rows already written for it; the orders after it are
    not looked at, and the file is closed. *)
Theorem export_stops_at_failing_order dir_path file_name
    (done : list value) (order : value) (rest : list value) e :
  LOGGED_IN E = true →
  (∀ account_number file_path all_orders,
     create_absolute_csv E dir_path file_name "stock" = Ok file_path →
     writable E file_path →
     get_all_stock_orders E account_number = Ok all_orders →
     iter all_orders = Ok (done ++ order :: rest) →
     Forall (λ o, outcome (stock_order E o) = Ok tt) done →
     outcome (stock_order E order) = Raise e →
     export_completed_stock_orders E dir_path file_name account_number
     = ([EvRequest "get_all_stock_orders" [account_number]; EvOpen file_path;
         EvWriteRow stock_header]
          ++ (flat_map (λ o, trace (stock_order E o)) done
              ++ trace (stock_order E order))
          ++ [EvClose],
        Raise e))
  ∧ (∀ file_path all_orders,
     create_absolute_csv E dir_path file_name "crypto" = Ok file_path →
     writable E file_path →
     get_all_crypto_orders E = Ok all_orders →
     iter all_orders = Ok (done ++ order :: rest) →
     Forall (λ o, outcome (crypto_order E o) = Ok tt) done →
     outcome (crypto_order E order) = Raise e →
     export_completed_crypto_orders E dir_path file_name
     = ([EvRequest "get_all_crypto_orders" []; EvOpen file_path;
         EvWriteRow stock_header]
          ++ (flat_map (λ o, trace (crypto_order E o)) done
              ++ trace (crypto_order E order))
          ++ [EvClose],
        Raise e))
  ∧ (∀ file_path all_orders,
     create_absolute_csv E dir_path file_name "option" = Ok file_path →
     writable E file_path →
     get_all_option_orders E = Ok all_orders →
     iter all_orders = Ok (done ++ order :: rest) →
     Forall (λ o, outcome (option_order E o) = Ok tt) done →
     outcome (option_order E order) = Raise e →
     export_completed_option_orders E dir_path file_name
     = ([EvRequest "get_all_option_orders" []; EvOpen file_path;
         EvWriteRow option_header]
          ++ (flat_map (λ o, trace (option_order E o)) done
              ++ trace (option_order E order))
          ++ [EvClose],
        Raise e)).
Proof.
  intros Hlogin. repeat split; intros.
  - rewrite export_stock_shape.
    erewrite export_with_opened by eassumption.
    erewrite for_each_abort by eassumption. reflexivity.
  - rewrite export_crypto_shape.
    erewrite export_with_opened by eassumption.
    erewrite for_each_abort by eassumption. reflexivity.
  - rewrite export_option_shape.
    erewrite export_with_opened by eassumption.
    erewrite for_each_abort by eassumption. reflexivity.
Qed.

End Course.

(** ** What an export does to the file *)

Section Only.
Context (P : event → Prop).

Lemma only_bind {A B} (m : prog A) (k : A → prog B) :
  Forall P (trace m) → (∀ a, Forall P (trace (k a))) → Forall P (trace (m ≫= k)).
Proof.
  intros Hm Hk. rewrite bind_unfold.
  destruct (outcome m); cbn [trace fst]; [|exact Hm].
  apply Forall_app. split; [exact Hm|apply Hk].
Qed.

Lemma only_lift {A} (r : result A) : Forall P (trace (lift r)).
Proof. constructor. Qed.

Lemma only_ret {A} (a : A) : Forall P (trace (mret a : prog A)).
Proof. constructor. Qed.

Lemma only_call endpoint args answer :
  P (EvRequest endpoint args) → Forall P (trace (call endpoint args answer)).
Proof.
  intros H. unfold call. rewrite bind_emit. destruct answer; repeat constructor; exact H.
Qed.

Lemma only_writerow row : P (EvWriteRow row) → Forall P (trace (writerow row)).
Proof. intros H. repeat constructor. exact H. Qed.

Lemma only_for_each {A} (l : list A) (body : A → prog unit) :
  (∀ x, Forall P (trace (body x))) → Forall P (trace (for_each l body)).
Proof.
  intros H. induction l as [|x l IH]; cbn [for_each]; [constructor|].
  apply only_bind; [apply H|intros _; exact IH].
Qed.

End Only.

(** One step of a proof that a program performs actions of one kind only. *)
Ltac only_step :=
  first
    [ apply only_lift
    | apply only_ret
    | apply only_call
    | apply only_writerow
    | apply only_for_each; intros ?
    | apply only_bind; [|intros ?]
    | match goal with
      | |- Forall _ (trace (if ?b then _ else _)) => destruct b
      | |- Forall _ (trace (match ?r with Ok _ => _ | Raise _ => _ end)) =>
          destruct r as [?|[]]
      | |- Forall _ (trace (let '(_, _) := ?x in _)) => destruct x
      | |- Forall _ (trace (raise _)) => constructor
      end ].

Section Actions.
Context (E : Env) (P : event → Prop).
Hypothesis Hrequest : ∀ endpoint args, P (EvRequest endpoint args).

Lemma stock_order_only order :
  (∀ row, length row = 7 → P (EvWriteRow row)) →
  Forall P (trace (stock_order E order)).
Proof.
  intros Hrow.
  unfold stock_order, stock_partial_row, stock_filled_row, item.
  repeat only_step; auto.
Qed.

Lemma crypto_order_only order :
  (∀ row, length row = 7 → P (EvWriteRow row)) →
  Forall P (trace (crypto_order E order)).
Proof.
  intros Hrow. unfold crypto_order, item.
  repeat only_step; auto.
Qed.

Lemma option_order_only order :
  (∀ row, length row = 15 → P (EvWriteRow row)) →
  Forall P (trace (option_order E order)).
Proof.
  intros Hrow. unfold option_order, option_leg_row, item.
  repeat only_step; auto.
Qed.

(** The actions of an export: none, or the fetch alone, or the fetch, the
    opening, the header, actions of the loop, and the close. *)
Lemma export_with_actions order_type endpoint args answer header body
    dir_path file_name :
  (∀ order, Forall P (trace (body order))) →
  let run := export_with E order_type endpoint args answer header body
               dir_path file_name in
  trace run = []
  ∨ trace run = [EvRequest endpoint args]
  ∨ ∃ file_path loop,
      trace run = [EvRequest endpoint args; EvOpen file_path; EvWriteRow header]
                    ++ loop ++ [EvClose]
      ∧ Forall P loop.
Proof.
  intros Hbody run. subst run. unfold export_with, login_required.
  destruct (LOGGED_IN E); [|left; reflexivity].
  destruct (create_absolute_csv E dir_path file_name order_type) as [file_path|e];
    [|left; reflexivity].
  rewrite bind_lift_ok.
  destruct answer as [all_orders|e]; [|right; left; reflexivity].
  rewrite (bind_call_ok _ _ _ _ _ eq_refl).
  unfold with_open, open_w, writerow.
  destruct (negb (is_dir E (parent file_path))); [right; left; reflexivity|].
  destruct (is_dir E file_path); [right; left; reflexivity|].
  right. right. exists file_path.
  rewrite !bind_emit.
  destruct (iter all_orders) as [orders|e].
  - rewrite bind_lift_ok. exists (trace (for_each orders body)).
    split; [reflexivity|]. apply only_for_each, Hbody.
  - exists []. split; [reflexivity|constructor].
Qed.

End Actions.

Lemma written_width n t :
  Forall (width n) t → Forall (λ row, length row = n) (written t).
Proof.
  induction 1 as [|[] t Hev _ IH]; cbn [written]; try assumption; constructor; assumption.
Qed.

Lemma written_of_actions n endpoint args file_path header loop :
  length header = n → Forall (width n) loop →
  Forall (λ row, length row = n)
    (written ([EvRequest endpoint args; EvOpen file_path; EvWriteRow header]
                ++ loop ++ [EvClose])).
Proof.
  intros Hheader Hloop. cbn [app written]. constructor; [exact Hheader|].
  rewrite written_app. cbn [written]. rewrite app_nil_r.
  apply written_width, Hloop.
Qed.

(** X11. Whatever the orders and whatever fails, an export that has opened
    the file has first made its one fetch, writes the header as first row,
    then only makes requests and writes rows, and closes the file as its
    last action; an export that has not opened the file has written
    nothing. *)
Theorem export_opens_writes_closes (E : Env) dir_path file_name :
  (∀ account_number,
     let run := export_completed_stock_orders E dir_path file_name account_number in
     trace run = []
     ∨ trace run = [EvRequest "get_all_stock_orders" [account_number]]
     ∨ ∃ file_path loop,
         trace run = [EvRequest "get_all_stock_orders" [account_number];
                      EvOpen file_path; EvWriteRow stock_header] ++ loop ++ [EvClose]
         ∧ Forall row_or_request loop)
  ∧ (let run := export_completed_crypto_orders E dir_path file_name in
     trace run = []
     ∨ trace run = [EvRequest "get_all_crypto_orders" []]
     ∨ ∃ file_path loop,
         trace run = [EvRequest "get_all_crypto_orders" [];
                      EvOpen file_path; EvWriteRow stock_header] ++ loop ++ [EvClose]
         ∧ Forall row_or_request loop)
  ∧ (let run := export_completed_option_orders E dir_path file_name in
     trace run = []
     ∨ trace run = [EvRequest "get_all_option_orders" []]
     ∨ ∃ file_path loop,
         trace run = [EvRequest "get_all_option_orders" [];
                      EvOpen file_path; EvWriteRow option_header] ++ loop ++ [EvClose]
         ∧ Forall row_or_request loop).
Proof.
  repeat split; intros.
  - subst run. rewrite export_stock_shape. apply export_with_actions.
    intros order. apply stock_order_only; intros; exact I.
  - subst run. rewrite export_crypto_shape. apply export_with_actions.
    intros order. apply crypto_order_only; intros; exact I.
  - subst run. rewrite export_option_shape. apply export_with_actions.
    intros order. apply option_order_only; intros; exact I.
Qed.

(** X12. Every row an export writes has as many fields as its header: 7
    in the stock and crypto exports, 15 in the option export. *)
Theorem rows_match_header (E : Env) dir_path file_name :
  (∀ account_number,
     Forall (λ row, length row = length stock_header)
       (written (trace (export_completed_stock_orders E dir_path file_name
                          account_number))))
  ∧ Forall (λ row, length row = length stock_header)
      (written (trace (export_completed_crypto_orders E dir_path file_name)))
  ∧ Forall (λ row, length row = length option_header)
      (written (trace (export_completed_option_orders E dir_path file_name))).
Proof.
  repeat split; intros.
  - rewrite export_stock_shape.
    destruct (export_with_actions E (width 7) "stock"
                "get_all_stock_orders" [account_number]
                (get_all_stock_orders E account_number) stock_header (stock_order E)
                dir_path file_name)
      as [->|[->|(file_path & loop & -> & Hloop)]];
      [intros order; apply stock_order_only; [intros; exact I|intros row H; exact H]
      |constructor|constructor|].
    apply written_of_actions; [reflexivity|exact Hloop].
  - rewrite export_crypto_shape.
    destruct (export_with_actions E (width 7) "crypto"
                "get_all_crypto_orders" [] (get_all_crypto_orders E) stock_header
                (crypto_order E) dir_path file_name)
      as [->|[->|(file_path & loop & -> & Hloop)]];
      [intros order; apply crypto_order_only; [intros; exact I|intros row H; exact H]
      |constructor|constructor|].
    apply written_of_actions; [reflexivity|exact Hloop].
  - rewrite export_option_shape.
    destruct (export_with_actions E (width 15) "option"
                "get_all_option_orders" [] (get_all_option_orders E) option_header
                (option_order E) dir_path file_name)
      as [->|[->|(file_path & loop & -> & Hloop)]];
      [intros order; apply option_order_only; [intros; exact I|intros row H; exact H]
      |constructor|constructor|].
    apply written_of_actions; [reflexivity|exact Hloop].
Qed.

(** ** Single orders *)

Lemma requests_app t1 t2 : requests (t1 ++ t2) = requests t1 ++ requests t2.
Proof.
  induction t1 as [|[] t1 IH]; cbn; rewrite ?IH; reflexivity.
Qed.

(** A loop whose iterations complete performs their actions one after the
    other. *)
Lemma for_each_trace {A} (l : list A) (body : A → prog unit) traces :
  Forall2 (λ x t, body x = (t, Ok tt)) l traces →
  for_each l body = (concat traces, Ok tt).
Proof.
  induction 1 as [|x t l traces Hx _ IH]; cbn [for_each concat]; [reflexivity|].
  rewrite bind_unfold, Hx, IH. reflexivity.
Qed.

Section SingleOrders.
Context (E : Env).

(** X13. In the stock export a filled order without a ["fees"] field is an
    error, unlike in the crypto export: the body raises [KeyError("fees")]
    after the symbol has been looked up, and writes no row. *)
Theorem stock_missing_fees_raises (d : dict) instrument sym ts ty side :
  d !! "state" = Some (VStr "filled") →
  d !! "cancel" = Some VNone →
  d !! "instrument" = Some instrument →
  get_symbol_by_url E instrument = Ok sym →
  d !! "last_transaction_at" = Some ts →
  d !! "type" = Some ty →
  d !! "side" = Some side →
  d !! "fees" = None →
  stock_order E (VDict d)
  = ([EvRequest "get_symbol_by_url" [instrument]], Raise (KeyError "fees")).
Proof.
  intros Hstate Hcancel Hinstr Hsym Hts Hty Hside Hfees.
  unfold stock_order, stock_filled_row. run.
  unfold item, getitem. rewrite Hfees. reflexivity.
Qed.

Lemma stock_partial_row_trace (d : dict) instrument sym ty side fees partial t q p :
  d !! "instrument" = Some instrument →
  get_symbol_by_url E instrument = Ok sym →
  d !! "type" = Some ty →
  d !! "side" = Some side →
  d !! "fees" = Some fees →
  execution_fields partial = Some (t, q, p) →
  stock_partial_row E (VDict d) partial
  = ([EvRequest "get_symbol_by_url" [instrument];
      EvWriteRow [sym; t; ty; side; fees; q; p]], Ok tt).
Proof.
  intros Hinstr Hsym Hty Hside Hfees Hex.
  destruct partial as [| | | | |l|e]; try discriminate Hex.
  cbn [execution_fields] in Hex.
  destruct (e !! "timestamp") as [t'|] eqn:Ht; [|discriminate].
  destruct (e !! "quantity") as [q'|] eqn:Hq; [|discriminate].
  destruct (e !! "price") as [p'|] eqn:Hp; [|discriminate].
  injection Hex as -> -> ->.
  unfold stock_partial_row. run. reflexivity.
Qed.

(** X14. For a cancelled stock order the symbol is looked up once per
    execution: with [n] executions the body makes [n] requests for the
    same instrument, each followed by the row of its execution. *)
Theorem cancelled_order_lookup_per_execution
    (d : dict) (executions : list value) instrument sym ty side fees
    (fields : list (value * value * value)) :
  d !! "state" = Some (VStr "cancelled") →
  d !! "executions" = Some (VList executions) →
  d !! "instrument" = Some instrument →
  get_symbol_by_url E instrument = Ok sym →
  d !! "type" = Some ty →
  d !! "side" = Some side →
  d !! "fees" = Some fees →
  Forall2 (λ partial f, execution_fields partial = Some f) executions fields →
  trace (stock_order E (VDict d))
  = flat_map (λ '(t, q, p), [EvRequest "get_symbol_by_url" [instrument];
                             EvWriteRow [sym; t; ty; side; fees; q; p]]) fields
  ∧ requests (trace (stock_order E (VDict d)))
    = replicate (length executions) ("get_symbol_by_url", [instrument]).
Proof.
  intros Hstate Hexs Hinstr Hsym Hty Hside Hfees Hfields.
  set (step := λ '(t, q, p), [EvRequest "get_symbol_by_url" [instrument];
                              EvWriteRow [sym; t; ty; side; fees; q; p]]).
  assert (for_each executions (stock_partial_row E (VDict d))
          = (concat (map step fields), Ok tt)) as Hloop.
  { apply for_each_trace. clear Hexs.
    induction Hfields as [|partial [[t q] p] exs fs Hf _ IH]; constructor.
    - eapply stock_partial_row_trace; eassumption.
    - exact IH. }
  assert (trace (stock_order E (VDict d)) = flat_map step fields) as Htrace.
  { unfold stock_order. run.
    destruct executions as [|partial exs].
    - inversion Hfields. subst. reflexivity.
    - cbn [length Nat.ltb Nat.leb]. run.
      rewrite Hloop. cbn. rewrite app_nil_r. symmetry. apply flat_map_concat_map. }
  split; [exact Htrace|]. rewrite Htrace.
  rewrite (Forall2_length _ _ _ Hfields).
  clear. induction fields as [|[[t q] p] fs IH]; [reflexivity|].
  cbn [flat_map length replicate]. rewrite requests_app, IH. reflexivity.
Qed.

(** X15. Empty lists inside an order are not an error: a cancelled stock
    order without executions and a filled option order without legs make
    the body do nothing and complete. *)
Theorem empty_sublists_do_nothing (d : dict) :
  (d !! "state" = Some (VStr "cancelled") →
   d !! "executions" = Some (VList []) →
   stock_order E (VDict d) = ([], Ok tt))
  ∧ (d !! "state" = Some (VStr "filled") →
     d !! "legs" = Some (VList []) →
     option_order E (VDict d) = ([], Ok tt)).
Proof.
  split; intros Hstate Hlist.
  - unfold stock_order. run. reflexivity.
  - unfold option_order. run. reflexivity.
Qed.

(** X16. A leg without executions stops the option export: after the
    instrument of the leg has been fetched, the aggregation raises
    [KeyError("price")] and no row is written for the leg. *)
Theorem leg_without_executions_raises order (l : dict) option instrument_data :
  l !! "option" = Some option →
  request_get E option = Ok instrument_data →
  l !! "executions" = Some (VList []) →
  option_leg_row E order (VDict l)
  = ([EvRequest "request_get" [option]], Raise (KeyError "price")).
Proof.
  intros Hoption Hget Hexecutions.
  unfold option_leg_row. run. reflexivity.
Qed.

End SingleOrders.

(** ** More on the weighted average *)

(** The depth of the cuts: any fuel from the length of the list on gives
    the same sum. *)
Lemma pairwise_sum_fuel (fuel fuel' : nat) (xs : list float) :
  length xs ≤ fuel → length xs ≤ fuel' →
  pairwise_sum fuel xs = pairwise_sum fuel' xs.
Proof.
  revert fuel' xs. induction fuel as [|fuel IH]; intros [|fuel'] xs Hfuel Hfuel';
    cbn [pairwise_sum];
    destruct (length xs <? 8) eqn:H8; try reflexivity;
    destruct (length xs <=? 128) eqn:H128; try reflexivity;
    apply Nat.leb_gt in H128; try lia.
  assert (length xs / 2 < length xs) by (apply Nat.div_lt; lia).
  assert (64 ≤ length xs / 2) by (apply Nat.div_le_lower_bound; lia).
  pose proof (Nat.mod_upper_bound (length xs / 2) 8 ltac:(lia)).
  f_equal; apply IH; rewrite ?length_take, ?length_drop; lia.
Qed.

Lemma fadd_NaN_l x : fadd NaN x = NaN.
Proof. destruct x; reflexivity. Qed.

Lemma fadd_NaN_r x : fadd x NaN = NaN.
Proof. destruct x; reflexivity. Qed.

Lemma sum_from_NaN xs : sum_from NaN xs = NaN.
Proof.
  unfold sum_from. induction xs as [|x xs IH]; [reflexivity|].
  cbn [fold_left]. rewrite fadd_NaN_l. exact IH.
Qed.

Lemma sum_from_In_NaN xs acc : In NaN xs → sum_from acc xs = NaN.
Proof.
  revert acc. induction xs as [|x xs IH]; intros acc; [intros []|].
  intros [->|Hin]; unfold sum_from; cbn [fold_left].
  - rewrite fadd_NaN_r. apply sum_from_NaN.
  - apply IH, Hin.
Qed.

Lemma zip_fadd_In_NaN (r ys : list float) :
  length r = length ys → In NaN r ∨ In NaN ys → In NaN (zip_with fadd r ys).
Proof.
  revert ys. induction r as [|x r IH]; intros [|y ys] Hlen Hin;
    try discriminate Hlen.
  - destruct Hin as [[]|[]].
  - cbn [zip_with]. injection Hlen as Hlen.
    destruct Hin as [[->|Hin]|[->|Hin]].
    + left. apply fadd_NaN_l.
    + right. apply IH; auto.
    + left. apply fadd_NaN_r.
    + right. apply IH; auto.
Qed.

Lemma In_take_drop {A} (x : A) (n : nat) (l : list A) :
  In x l → In x (take n l) ∨ In x (drop n l).
Proof.
  intros Hin. apply in_app_or. rewrite take_drop. exact Hin.
Qed.

Lemma unrolled_In_NaN (groups : nat) (r xs : list float) :
  length r = 8 → 8 * groups ≤ length xs →
  In NaN r ∨ In NaN xs →
  In NaN (unrolled groups r xs).1 ∨ In NaN (unrolled groups r xs).2.
Proof.
  revert r xs. induction groups as [|g IH]; intros r xs Hr Hxs Hin; [exact Hin|].
  cbn [unrolled].
  assert (length (take 8 xs) = 8) as Htake by (rewrite length_take; lia).
  apply IH.
  - rewrite length_zip_with, Hr, Htake. reflexivity.
  - rewrite length_drop. lia.
  - destruct Hin as [Hin|Hin].
    + left. apply zip_fadd_In_NaN; [congruence|auto].
    + destruct (In_take_drop _ 8 _ Hin) as [Hin'|Hin']; [left|right; exact Hin'].
      apply zip_fadd_In_NaN; [congruence|auto].
Qed.

Lemma add8_In_NaN (r : list float) : In NaN r → add8 r = NaN.
Proof.
  intros Hin.
  destruct r as [|r0 [|r1 [|r2 [|r3 [|r4 [|r5 [|r6 [|r7 [|r8 r]]]]]]]]];
    try (cbn [add8]; apply sum_from_In_NaN; exact Hin).
  cbn [add8].
  repeat (destruct Hin as [->|Hin];
          [rewrite ?fadd_NaN_l, ?fadd_NaN_r; reflexivity|]).
  destruct Hin.
Qed.

Lemma pairwise_block_In_NaN (xs : list float) :
  8 ≤ length xs → In NaN xs → pairwise_block xs = NaN.
Proof.
  intros Hlen Hin. unfold pairwise_block.
  pose proof (unrolled_In_NaN (length xs / 8 - 1) (take 8 xs) (drop 8 xs)) as H.
  destruct (unrolled (length xs / 8 - 1) (take 8 xs) (drop 8 xs)) as [r rest].
  cbn [fst snd] in H. destruct H as [H|H].
  - rewrite length_take. lia.
  - rewrite length_drop.
    pose proof (Nat.Div0.mul_div_le (length xs) 8). lia.
  - apply In_take_drop, Hin.
  - rewrite (add8_In_NaN r H). apply sum_from_NaN.
  - apply sum_from_In_NaN, H.
Qed.

Lemma pairwise_sum_In_NaN (fuel : nat) (xs : list float) :
  In NaN xs → pairwise_sum fuel xs = NaN.
Proof.
  revert xs. induction fuel as [|fuel IH]; intros xs Hin; cbn [pairwise_sum];
    (destruct (length xs <? 8) eqn:H8; [apply sum_from_In_NaN, Hin|]);
    apply Nat.ltb_ge in H8;
    (destruct (length xs <=? 128); [apply pairwise_block_In_NaN; assumption|]).
  - apply pairwise_block_In_NaN; assumption.
  - destruct (In_take_drop _ (length xs / 2 - (length xs / 2) mod 8) _ Hin) as [H|H];
      rewrite (IH _ H); [apply fadd_NaN_l|apply fadd_NaN_r].
Qed.

(** One [NaN] among the terms makes the [numpy] sum [NaN]. *)
Lemma np_sum_NaN xs : In NaN xs → np_sum xs = NaN.
Proof.
  intros Hin. unfold np_sum. rewrite (pairwise_sum_In_NaN _ _ Hin). reflexivity.
Qed.

Lemma records_of_dicts (recs : list dict) : records (VDict <$> recs) = Ok recs.
Proof.
  induction recs as [|d recs IH]; [reflexivity|].
  cbn [fmap list_fmap records]. change (list_fmap _ _ VDict recs) with (VDict <$> recs).
  rewrite IH. reflexivity.
Qed.

Section AverageEdges.
Context (E : Env).

(** The price column of a frame in which some record has a price and every
    price converts: its entries, [NaN] where the record has none. *)
Lemma price_column (recs : list dict) :
  Exists (λ d : dict, is_Some (d !! "price")) recs →
  Forall (λ d : dict, ∀ v, d !! "price" = Some v → ∃ x, to_float E v = Ok x) recs →
  ∃ col prices,
    column recs "price" = Ok col
    ∧ astype_float E col = Ok prices
    ∧ Forall2 (λ (d : dict) x, d !! "price" = None → x = NaN) recs prices.
Proof.
  intros Hsome Hconv.
  exists (map (fun d : dict => default (VNum NaN) (d !! "price")) recs).
  assert (column recs "price"
          = Ok (map (fun d : dict => default (VNum NaN) (d !! "price")) recs)) as Hcol.
  { unfold column.
    replace (existsb (fun d : dict => bool_decide (is_Some (d !! "price"))) recs)
      with true; [reflexivity|].
    symmetry. apply existsb_exists. apply Exists_exists in Hsome as (d & Hin & Hd).
    exists d. split; [apply list_elem_of_In, Hin|apply bool_decide_eq_true_2, Hd]. }
  clear Hsome.
  assert (∃ prices,
            astype_float E (map (fun d : dict => default (VNum NaN) (d !! "price")) recs)
            = Ok prices
            ∧ Forall2 (λ (d : dict) x, d !! "price" = None → x = NaN) recs prices)
    as (prices & Hprices & Hnan).
  { clear Hcol. induction Hconv as [|d recs Hd _ (prices & IH & IHnan)].
    - exists []. split; [reflexivity|constructor].
    - cbn [map astype_float]. destruct (d !! "price") as [v|] eqn:Hprice.
      + destruct (Hd v eq_refl) as [x Hx].
        change (default (VNum NaN) (Some v)) with v.
        rewrite Hx. cbn. rewrite IH. cbn.
        exists (x :: prices). split; [reflexivity|].
        constructor; [rewrite Hprice; intros [=]|exact IHnan].
      + cbn. rewrite IH. cbn.
        exists (NaN :: prices). split; [reflexivity|].
        constructor; [intros _; reflexivity|exact IHnan]. }
  exists prices. auto.
Qed.

Lemma quantity_column (recs : list dict) (qs : list float) :
  recs ≠ [] →
  Forall2 (λ (d : dict) q, ∃ v, d !! "quantity" = Some v ∧ to_float E v = Ok q)
          recs qs →
  ∃ col, column recs "quantity" = Ok col ∧ astype_float E col = Ok qs.
Proof.
  intros Hne Hq.
  destruct (column_of_frame E recs "quantity" qs Hne Hq) as (col & Hcol & Hconv).
  exists col. split; [exact Hcol|]. apply astype_float_ok, Hconv.
Qed.

(** X18. When the quantities of the records convert and do not add up to
    zero, and one record has no price while another has one, the
    aggregation does not raise: the average price is [NaN], and the total
    quantity is still pandas' sum of all the quantities. *)
Theorem missing_price_gives_NaN (recs : list dict) (qs : list float) :
  Forall2 (λ (d : dict) q, ∃ v, d !! "quantity" = Some v ∧ to_float E v = Ok q)
          recs qs →
  Forall (λ d : dict, ∀ v, d !! "price" = Some v → ∃ x, to_float E v = Ok x) recs →
  Exists (λ d : dict, is_Some (d !! "price")) recs →
  Exists (λ d : dict, d !! "price" = None) recs →
  is_zero (np_sum qs) = false →
  aggregate E (VList (VDict <$> recs)) = Ok (pd_sum qs, NaN).
Proof.
  intros Hq Hconv Hsome Hnone Hsum.
  assert (recs ≠ []) as Hne by (intros ->; inversion Hnone).
  destruct (price_column recs Hsome Hconv) as (pcol & prices & Hpcol & Hprices & Hnan).
  destruct (quantity_column recs qs Hne Hq) as (qcol & Hqcol & Hquantities).
  assert (In NaN (zip_with fmul prices qs)) as Hin.
  { clear -Hq Hnan Hnone. revert prices Hnan.
    induction Hq as [|d q recs qs _ _ IH]; intros prices Hnan; [inversion Hnone|].
    inversion Hnan as [|d' x recs' prices' Hx Hrest]; subst.
    cbn [zip_with]. apply Exists_cons in Hnone as [Hd|Hlater].
    - left. rewrite (Hx Hd). destruct q; reflexivity.
    - right. apply IH; assumption. }
  unfold aggregate. cbn [DataFrame]. rewrite records_of_dicts. cbn [mbind result_bind].
  rewrite Hpcol. cbn [mbind result_bind]. rewrite Hprices. cbn [mbind result_bind].
  rewrite Hqcol. cbn [mbind result_bind]. rewrite Hquantities. cbn [mbind result_bind].
  unfold np_average. rewrite Hsum, (np_sum_NaN _ Hin). reflexivity.
Qed.

(** X19. When some record has a price, every price converts, and no record
    has a quantity, the aggregation raises [KeyError("quantity")]: the
    prices are converted first, then the quantity column is missed. *)
Theorem missing_quantity_raises (recs : list dict) :
  Exists (λ d : dict, is_Some (d !! "price")) recs →
  Forall (λ d : dict, ∀ v, d !! "price" = Some v → ∃ x, to_float E v = Ok x) recs →
  Forall (λ d : dict, d !! "quantity" = None) recs →
  aggregate E (VList (VDict <$> recs)) = Raise (KeyError "quantity").
Proof.
  intros Hsome Hconv Hnone.
  destruct (price_column recs Hsome Hconv) as (pcol & prices & Hpcol & Hprices & _).
  unfold aggregate. cbn [DataFrame]. rewrite records_of_dicts. cbn.
  rewrite Hpcol. cbn. rewrite Hprices. cbn.
  unfold column.
  replace (existsb (fun d : dict => bool_decide (is_Some (d !! "quantity"))) recs)
    with false; [reflexivity|].
  symmetry. clear -Hnone.
  induction Hnone as [|d recs Hd _ IH]; [reflexivity|].
  cbn [existsb]. rewrite Hd, IH. reflexivity.
Qed.

End AverageEdges.

(** X17. Binary64 shows in the aggregation. The one execution of price
    [0.1] and quantity [3] has the average price [0.10000000000000002], one
    unit in the last place above its price: the product is rounded, then
    the quotient. The quantities [10^16], [1] and [-10^16] add up to [0.0],
    the [1] being lost in the first addition, and the aggregation raises
    [ZeroDivisionError]. A quantity [10^400] has no binary64 number and the
    conversion of the column raises [OverflowError]. *)
Theorem weighted_average_rounds :
  tenth = S754_finite false 7205759403792794 (-56)
  ∧ aggregate env0 (VList [execution (VNum tenth) (VInt 3)])
    = Ok (float_of_Z 3, S754_finite false 7205759403792795 (-56))
  ∧ aggregate env0 (VList [execution (num 10) (VInt (10 ^ 16));
                           execution (num 10) (VInt 1);
                           execution (num 10) (VInt (- 10 ^ 16))])
    = Raise ZeroDivisionError
  ∧ aggregate env0 (VList [execution (num 10) (VInt (10 ^ 400))])
    = Raise OverflowError.
Proof. repeat split; vm_compute; reflexivity. Qed.

(** ** Instances of the further properties *)

Lemma path_error_precedes_fetch_witness :
  export_completed_stock_orders env0 "out" (Some "/") VNone = ([], Raise ValueError).
Proof.
  exact (proj1 (path_error_precedes_fetch env0 "out" (Some "/") ValueError eq_refl)
           eq_refl VNone).
Defined.

Lemma fetch_error_leaves_file_witness :
  export_completed_crypto_orders env_down "out" None
  = ([EvRequest "get_all_crypto_orders" []],
     Raise (RequestFailed "get_all_crypto_orders")).
Proof.
  exact (proj1 (proj2 (fetch_error_leaves_file env_down "out" None
                         (RequestFailed "get_all_crypto_orders") eq_refl))
           (mkPath true ["home"; "user"; "out"; "crypto_orders.csv"]) eq_refl eq_refl).
Defined.

Lemma no_orders_header_only_witness :
  export_completed_option_orders env0 "out" None
  = ([EvRequest "get_all_option_orders" [];
      EvOpen (mkPath true ["home"; "user"; "out"; "option_orders.csv"]);
      EvWriteRow option_header; EvClose], Ok tt).
Proof.
  exact (proj2 (proj2 (no_orders_header_only env0 "out" None eq_refl))
           (mkPath true ["home"; "user"; "out"; "option_orders.csv"])
           eq_refl (conj eq_refl eq_refl) eq_refl).
Defined.

(** The order after the broken one is not written. *)
Lemma export_stops_at_failing_order_witness :
  written (trace (export_completed_stock_orders env_broken "out" None VNone))
  = [stock_header;
     [VStr "AAPL"; VStr "t9"; VStr "market"; VStr "buy"; num 0; num 10; num 150]]
  ∧ outcome (export_completed_stock_orders env_broken "out" None VNone)
    = Raise TypeError.
Proof.
  rewrite (proj1 (export_stops_at_failing_order env_broken "out" None
                    [VDict filled_stock] VNone [VDict cancelled_stock] TypeError
                    eq_refl)
             VNone (mkPath true ["home"; "user"; "out"; "stock_orders.csv"])
             (VList [VDict filled_stock; VNone; VDict cancelled_stock])
             eq_refl (conj eq_refl eq_refl) eq_refl eq_refl).
  - split; vm_compute; reflexivity.
  - repeat constructor.
  - reflexivity.
Defined.

Lemma stock_missing_fees_raises_witness :
  stock_order env0 (VDict stock_without_fees)
  = ([EvRequest "get_symbol_by_url" [VStr "url:aapl"]], Raise (KeyError "fees")).
Proof.
  apply (stock_missing_fees_raises env0 stock_without_fees (VStr "url:aapl")
           (VStr "AAPL") (VStr "t9") (VStr "market") (VStr "buy"));
    reflexivity.
Defined.

Lemma cancelled_order_lookup_per_execution_witness :
  requests (trace (stock_order env0 (VDict cancelled_stock)))
  = replicate 2 ("get_symbol_by_url", [VStr "url:aapl"]).
Proof.
  refine (proj2 (cancelled_order_lookup_per_execution env0 cancelled_stock
                   [exec "t1" 100 3; exec "t2" 105 2] (VStr "url:aapl") (VStr "AAPL")
                   (VStr "limit") (VStr "buy") (num 0)
                   [(VStr "t1", num 3, num 100); (VStr "t2", num 2, num 105)]
                   _ _ _ _ _ _ _ _));
    try reflexivity.
  repeat constructor.
Defined.

Lemma empty_sublists_do_nothing_witness :
  stock_order env0 (VDict cancelled_unexecuted) = ([], Ok tt).
Proof.
  apply (proj1 (empty_sublists_do_nothing env0 cancelled_unexecuted)); reflexivity.
Defined.

Lemma leg_without_executions_raises_witness :
  option_leg_row env0 (VDict filled_option) (VDict leg_unexecuted)
  = ([EvRequest "request_get" [VStr "url:opt-1"]], Raise (KeyError "price")).
Proof.
  eapply (leg_without_executions_raises env0 (VDict filled_option) leg_unexecuted
            (VStr "url:opt-1")); reflexivity.
Defined.

Lemma missing_price_gives_NaN_witness :
  aggregate env0 (VList (VDict <$> [priced; unpriced])) = Ok (float_of_Z 5, NaN).
Proof.
  rewrite (missing_price_gives_NaN env0 [priced; unpriced] [float_of_Z 2; float_of_Z 3]).
  - vm_compute. reflexivity.
  - repeat constructor; eexists; split; reflexivity.
  - repeat constructor; intros v Hv; vm_compute in Hv;
      [injection Hv as <-; eexists; reflexivity|discriminate Hv].
  - left. eexists. reflexivity.
  - right. left. reflexivity.
  - vm_compute. reflexivity.
Defined.

Lemma missing_quantity_raises_witness :
  aggregate env0 (VList (VDict <$> [price_only])) = Raise (KeyError "quantity").
Proof.
  apply (missing_quantity_raises env0 [price_only]).
  - left. eexists. reflexivity.
  - repeat constructor. intros v Hv. vm_compute in Hv.
    injection Hv as <-. eexists. reflexivity.
  - repeat constructor.
Defined.

(** ** The row of an option leg *)

(** X20. For a leg whose instrument is fetched and whose executions
    aggregate to a total quantity and an average price, the option export
    writes one row of fifteen fields: the order's chain symbol; the
    instrument's expiration date, strike price, type and id; the leg's
    side; the order's creation time and direction; the total quantity of
    the leg, in the place of the order's quantity; the order's type and
    strategies; the average price of the leg, in the place of the order's
    price; the order's processed quantity and its regulatory fees. *)
Theorem option_leg_row_fields (E : Env) (order l data : dict)
    option executions total_quantity avg_price
    chain_symbol expiration_date strike_price option_type option_id side
    created_at direction type opening_strategy closing_strategy
    processed_quantity regulatory_fees :
  l !! "option" = Some option →
  request_get E option = Ok (VDict data) →
  l !! "executions" = Some executions →
  aggregate E executions = Ok (total_quantity, avg_price) →
  order !! "chain_symbol" = Some chain_symbol →
  data !! "expiration_date" = Some expiration_date →
  data !! "strike_price" = Some strike_price →
  data !! "type" = Some option_type →
  data !! "id" = Some option_id →
  l !! "side" = Some side →
  order !! "created_at" = Some created_at →
  order !! "direction" = Some direction →
  order !! "type" = Some type →
  order !! "opening_strategy" = Some opening_strategy →
  order !! "closing_strategy" = Some closing_strategy →
  order !! "processed_quantity" = Some processed_quantity →
  order !! "regulatory_fees" = Some regulatory_fees →
  option_leg_row E (VDict order) (VDict l)
  = ([EvRequest "request_get" [option];
      EvWriteRow
        [chain_symbol; expiration_date; strike_price; option_type; option_id;
         side; created_at; direction; VNum total_quantity; type;
         opening_strategy; closing_strategy; VNum avg_price;
         processed_quantity; regulatory_fees]],
     Ok tt).
Proof.
  intros Hoption Hget Hexecutions Hagg Hchain Hexp Hstrike Htype Hid Hside
    Hcreated Hdirection Hty Hopening Hclosing Hprocessed Hfees.
  unfold option_leg_row. run. rewrite Hagg. run. reflexivity.
Qed.

Lemma option_leg_row_fields_witness :
  option_leg_row env0 (VDict filled_option)
    (leg "buy" [exec "t1" 10 2; exec "t2" 20 2])
  = ([EvRequest "request_get" [VStr "url:opt-1"];
      EvWriteRow
        [VStr "AAPL"; VStr "2024-01-19"; VStr "150.0000"; VStr "call"; VStr "opt-1";
         VStr "buy"; VStr "t0"; VStr "debit"; num 4; VStr "limit";
         VStr "long_call"; VNone; num 15; num 4; num 0]],
     Ok tt).
Proof.
  eapply (option_leg_row_fields env0 filled_option); reflexivity.
Defined.
